(** * TrafficXia: the microphone worker ([audio/mic_worker.py])

    A shallow embedding of [SirenState] and [MicWorker]: the ring buffer
    ([_write_ring], [_read_latest_window]), the real-time callback
    ([_callback]) with its level meter, and the supervisor loop
    ([run_loop]) as a step function over its program points.

    Modelling conventions.
    - Python [int] is [Z]; Python and numpy floats are idealised as real
      numbers ([float := R]), so the arithmetic of the meter is exact.
    - A one-dimensional numpy array is the [list] of its elements; slices
      follow Python's rules (negative and out-of-range bounds are clamped),
      slice assignment follows numpy's (shapes must agree, or the source
      has one element which is broadcast).
    - A method is a computation in the monad [M]: it takes the worker
      ([self]), returns a value or raises, and yields the mutated worker.
      A raise keeps the mutations made before it, as in Python.
    - The world outside the worker (clock, device query, stream handle) is
      an explicit oracle [Env] consulted by each supervisor step.
    - [run_loop] is cut at its loop tests and at the entries of its
      [except] and [finally] clauses; a step runs from one of these
      program points to the next. Callbacks of the audio thread and stop
      requests of the owner interleave with the steps. *)

From Stdlib Require Import Reals Lra ZArith Lia List String Ascii Bool.
Import ListNotations.

Local Open Scope string_scope.
Local Open Scope list_scope.
Local Open Scope Z_scope.

(** ** Exceptions and results *)

Record exn := mkExn { exn_name : string; exn_msg : string }.

Definition ValueError (msg : string) : exn := mkExn "ValueError" msg.
Definition ZeroDivisionError (msg : string) : exn := mkExn "ZeroDivisionError" msg.

Inductive res (X : Type) : Type :=
| Ok (x : X)
| Raise (e : exn).
Arguments Ok {X} x.
Arguments Raise {X} e.

Definition is_ok {X} (r : res X) : bool :=
  match r with Ok _ => true | Raise _ => false end.

(** ** Python and numpy primitives *)

Definition float := R.

Section PyList.
Context {A : Type}.

Definition size (l : list A) : Z := Z.of_nat (List.length l).

(** [slice.indices] for a unit step: a negative bound counts from the
    end, and every bound is clamped into [0, L]. *)
Definition clamp (L i : Z) : Z :=
  if i <? 0 then Z.max (i + L) 0 else Z.min i L.

Definition lo_bound (L : Z) (a : option Z) : Z :=
  match a with None => 0 | Some i => clamp L i end.

Definition hi_bound (L : Z) (b : option Z) : Z :=
  match b with None => L | Some i => clamp L i end.

(** [l[a:b]]; [None] is an omitted bound. *)
Definition slice (l : list A) (a b : option Z) : list A :=
  let L := size l in
  let lo := lo_bound L a in
  let hi := hi_bound L b in
  firstn (Z.to_nat (hi - lo)) (skipn (Z.to_nat lo) l).

(** [l[a:b] = src] on a numpy array: the array keeps its length; the
    source must have the length of the slice, or a single element. *)
Definition set_slice (l : list A) (a b : option Z) (src : list A)
  : res (list A) :=
  let L := size l in
  let lo := lo_bound L a in
  let hi := hi_bound L b in
  let k := Z.max (hi - lo) 0 in
  let put (mid : list A) :=
    firstn (Z.to_nat lo) l ++ mid ++ skipn (Z.to_nat (lo + k)) l in
  if size src =? k then Ok (put src)
  else match src with
       | [v] => Ok (put (repeat v (Z.to_nat k)))
       | _ => Raise (ValueError "could not broadcast input array")
       end.

(** The last [n] elements of a list. *)
Definition lastn (n : Z) (l : list A) : list A :=
  skipn (Z.to_nat (size l - n)) l.
End PyList.

(** [a % b] on Python integers: the sign follows the divisor. *)
Definition py_mod (a b : Z) : res Z :=
  if b =? 0 then Raise (ZeroDivisionError "integer modulo by zero")
  else Ok (a mod b).

Local Open Scope R_scope.

(** [int(r)]: truncation towards zero. *)
Definition py_int (r : float) : Z :=
  if Rle_dec 0 r then Int_part r else (- Int_part (- r))%Z.

Definition log10 (x : float) : float := ln x / ln 10.

(** [math.log10]. *)
Definition math_log10 (x : float) : res float :=
  if Rlt_dec 0 x then Ok (log10 x)
  else Raise (ValueError "math domain error").

(** Comparisons on floats as booleans. *)
Definition Rgtb (a b : float) : bool := if Rgt_dec a b then true else false.
Definition Rgeb (a b : float) : bool := if Rge_dec a b then true else false.
Definition Rnonzero (a : float) : bool := if Req_dec_T a 0 then false else true.

(** [np.mean]; of an empty array numpy answers NaN, the division by zero
    of the reals answers 0. *)
Definition np_mean (l : list float) : float :=
  fold_right Rplus 0 l / IZR (size l).

(** ** Strings *)

Definition lower_ascii (c : ascii) : ascii :=
  let n := nat_of_ascii c in
  if (65 <=? n)%nat && (n <=? 90)%nat then ascii_of_nat (n + 32) else c.

(** [str.lower]; strings are ASCII here. *)
Fixpoint lower (s : string) : string :=
  match s with
  | EmptyString => EmptyString
  | String c s' => String (lower_ascii c) (lower s')
  end.

(** [needle in s]. *)
Fixpoint contains (needle s : string) : bool :=
  if prefix needle s then true
  else match s with
       | EmptyString => false
       | String _ s' => contains needle s'
       end.

(** Truth value of a string: non-empty. *)
Definition truthy (s : string) : bool :=
  match s with EmptyString => false | _ => true end.

(** ** Data model *)

Record SirenState := mkSirenState {
  label : string;
  conf : float;
  consecutive_hits : Z;
  triggered : bool;
  last_error : string;
  rms : float;
  db : float;
  sr_used : Z;
  last_cb_ts : float;
  overflows : Z
}.

(** The dataclass defaults. *)
Definition SirenState_new (sr_used : Z) : SirenState :=
  mkSirenState "traffic" 0 0 false EmptyString 0 (-120) sr_used 0 0.

Record MicWorker := mkMicWorker {
  device_id : Z;
  infer : list float -> string * float;
  window_sec : float;
  threshold : float;
  consecutive_needed : Z;
  sr : Z;
  state : SirenState;
  _stop : bool;
  _need : Z;
  _buf : list float;
  _w : Z;
  _meter_rms : float;
  _meter_alpha : float
}.

(** Field updates. *)
Definition set_state (f : SirenState -> SirenState) (s : MicWorker) : MicWorker :=
  mkMicWorker (device_id s) (infer s) (window_sec s) (threshold s)
    (consecutive_needed s) (sr s) (f (state s)) (_stop s) (_need s) (_buf s)
    (_w s) (_meter_rms s) (_meter_alpha s).

Definition set_label (v : string) (t : SirenState) : SirenState :=
  mkSirenState v (conf t) (consecutive_hits t) (triggered t) (last_error t)
    (rms t) (db t) (sr_used t) (last_cb_ts t) (overflows t).
Definition set_conf (v : float) (t : SirenState) : SirenState :=
  mkSirenState (label t) v (consecutive_hits t) (triggered t) (last_error t)
    (rms t) (db t) (sr_used t) (last_cb_ts t) (overflows t).
Definition set_consecutive_hits (v : Z) (t : SirenState) : SirenState :=
  mkSirenState (label t) (conf t) v (triggered t) (last_error t)
    (rms t) (db t) (sr_used t) (last_cb_ts t) (overflows t).
Definition set_triggered (v : bool) (t : SirenState) : SirenState :=
  mkSirenState (label t) (conf t) (consecutive_hits t) v (last_error t)
    (rms t) (db t) (sr_used t) (last_cb_ts t) (overflows t).
Definition set_last_error (v : string) (t : SirenState) : SirenState :=
  mkSirenState (label t) (conf t) (consecutive_hits t) (triggered t) v
    (rms t) (db t) (sr_used t) (last_cb_ts t) (overflows t).
Definition set_rms (v : float) (t : SirenState) : SirenState :=
  mkSirenState (label t) (conf t) (consecutive_hits t) (triggered t)
    (last_error t) v (db t) (sr_used t) (last_cb_ts t) (overflows t).
Definition set_db (v : float) (t : SirenState) : SirenState :=
  mkSirenState (label t) (conf t) (consecutive_hits t) (triggered t)
    (last_error t) (rms t) v (sr_used t) (last_cb_ts t) (overflows t).
Definition set_sr_used (v : Z) (t : SirenState) : SirenState :=
  mkSirenState (label t) (conf t) (consecutive_hits t) (triggered t)
    (last_error t) (rms t) (db t) v (last_cb_ts t) (overflows t).
Definition set_last_cb_ts (v : float) (t : SirenState) : SirenState :=
  mkSirenState (label t) (conf t) (consecutive_hits t) (triggered t)
    (last_error t) (rms t) (db t) (sr_used t) v (overflows t).
Definition set_overflows (v : Z) (t : SirenState) : SirenState :=
  mkSirenState (label t) (conf t) (consecutive_hits t) (triggered t)
    (last_error t) (rms t) (db t) (sr_used t) (last_cb_ts t) v.

Definition set_sr (v : Z) (s : MicWorker) : MicWorker :=
  mkMicWorker (device_id s) (infer s) (window_sec s) (threshold s)
    (consecutive_needed s) v (state s) (_stop s) (_need s) (_buf s)
    (_w s) (_meter_rms s) (_meter_alpha s).
Definition set_stop (v : bool) (s : MicWorker) : MicWorker :=
  mkMicWorker (device_id s) (infer s) (window_sec s) (threshold s)
    (consecutive_needed s) (sr s) (state s) v (_need s) (_buf s)
    (_w s) (_meter_rms s) (_meter_alpha s).
Definition set_need (v : Z) (s : MicWorker) : MicWorker :=
  mkMicWorker (device_id s) (infer s) (window_sec s) (threshold s)
    (consecutive_needed s) (sr s) (state s) (_stop s) v (_buf s)
    (_w s) (_meter_rms s) (_meter_alpha s).
Definition set_buf (v : list float) (s : MicWorker) : MicWorker :=
  mkMicWorker (device_id s) (infer s) (window_sec s) (threshold s)
    (consecutive_needed s) (sr s) (state s) (_stop s) (_need s) v
    (_w s) (_meter_rms s) (_meter_alpha s).
Definition set_w (v : Z) (s : MicWorker) : MicWorker :=
  mkMicWorker (device_id s) (infer s) (window_sec s) (threshold s)
    (consecutive_needed s) (sr s) (state s) (_stop s) (_need s) (_buf s)
    v (_meter_rms s) (_meter_alpha s).
Definition set_meter_rms (v : float) (s : MicWorker) : MicWorker :=
  mkMicWorker (device_id s) (infer s) (window_sec s) (threshold s)
    (consecutive_needed s) (sr s) (state s) (_stop s) (_need s) (_buf s)
    (_w s) v (_meter_alpha s).

(** ** The method monad *)

Definition M (X : Type) : Type := MicWorker -> res X * MicWorker.

Definition ret {X} (x : X) : M X := fun self => (Ok x, self).
Definition raise {X} (e : exn) : M X := fun self => (Raise e, self).
Definition bind {X Y} (m : M X) (k : X -> M Y) : M Y :=
  fun self =>
    match m self with
    | (Ok x, self') => k x self'
    | (Raise e, self') => (Raise e, self')
    end.
Definition get : M MicWorker := fun self => (Ok self, self).
Definition modify (f : MicWorker -> MicWorker) : M unit :=
  fun self => (Ok tt, f self).
Definition lift {X} (r : res X) : M X := fun self => (r, self).

Declare Scope py_scope.
Delimit Scope py_scope with py.
Notation "x <- m ;; k" := (bind m (fun x => k))
  (at level 61, m at next level, right associativity) : py_scope.
Notation "m ;; k" := (bind m (fun _ => k))
  (at level 61, right associativity) : py_scope.
Local Open Scope py_scope.

(** ** Construction *)

(** [np.zeros(n, dtype=np.float32)]. A negative length is refused with
    [ValueError]; [refused n] is the exception numpy raises when the host
    does not grant an array of [n] samples ([ValueError] beyond the
    largest dimension, [MemoryError] when the allocation fails), [None]
    when it grants it. *)
Definition np_zeros (refused : Z -> option exn) (n : Z) : res (list float) :=
  if (n <? 0)%Z
  then Raise (ValueError "negative dimensions are not allowed")
  else match refused n with
       | Some e => Raise e
       | None => Ok (repeat 0 (Z.to_nat n))
       end.

(** [MicWorker.__init__]. [query] is the outcome of
    [sd.query_devices(self.device_id)] (line 47): the call raises, or it
    answers with the device's record, of which the entry
    [default_samplerate] is kept, [None] when it is absent. The call is
    made, and its exception raised on, also when [sr] is given. *)
Definition MicWorker_init (query : res (option float))
    (refused : Z -> option exn)
    (device_id : Z) (infer : list float -> string * float)
    (window_sec : float) (sr : option Z) (threshold : float)
    (consecutive_needed : Z) : res MicWorker :=
  match query with
  | Raise e => Raise e
  | Ok default_samplerate =>
      let default_sr :=
        py_int (match default_samplerate with
                | Some v => v | None => 48000 end) in
      let sr := match sr with None => default_sr | Some v => v end in
      let need := py_int (window_sec * IZR sr) in
      match np_zeros refused (need * 4) with
      | Raise e => Raise e
      | Ok buf =>
          Ok (mkMicWorker device_id infer window_sec threshold
                consecutive_needed sr (SirenState_new sr) false need
                buf 0%Z 0 0.20)
      end
  end.

(** [MicWorker.stop]. *)
Definition stop : M unit := modify (set_stop true).

(** ** Ring buffer *)

(** [MicWorker._write_ring]. *)
Definition _write_ring (x : list float) : M unit :=
  let n := size x in
  if (n <=? 0)%Z then ret tt
  else
    self <- get ;;
    let end_ := (_w self + n)%Z in
    let L := size (_buf self) in
    (if (end_ <=? L)%Z then
       b <- lift (set_slice (_buf self) (Some (_w self)) (Some end_) x) ;;
       modify (set_buf b)
     else
       let first := (L - _w self)%Z in
       b1 <- lift (set_slice (_buf self) (Some (_w self)) None
                     (slice x None (Some first))) ;;
       modify (set_buf b1) ;;
       b2 <- lift (set_slice b1 None (Some (end_ - L)%Z)
                     (slice x (Some first) None)) ;;
       modify (set_buf b2)) ;;
    w' <- lift (py_mod end_ L) ;;
    modify (set_w w').

(** [MicWorker._read_latest_window]. *)
Definition _read_latest_window : M (list float) :=
  self <- get ;;
  let L := size (_buf self) in
  start <- lift (py_mod (_w self - _need self) L) ;;
  if (start <? _w self)%Z
  then ret (slice (_buf self) (Some start) (Some (_w self)))
  else ret (slice (_buf self) (Some start) None
            ++ slice (_buf self) None (Some (_w self))).

(** ** The real-time callback *)

(** The block handed to the callback, a (frames x channels) array. The
    stream is opened with [channels=1], so there is a first column;
    [indata[:, 0]] is [column0]. *)
Record ndarray2 := mkBlock {
  column0 : list float;
  other_columns : list (list float)
}.

(** [rms] of a block as the callback computes it (line 105). *)
Definition block_rms (x : list float) : float :=
  sqrt (np_mean (map (fun v => v * v) x) + 1e-12).

(** [MicWorker._callback]; [now] is what [time.time()] returns. *)
Definition _callback (indata : ndarray2) (status : string) (now : float)
  : M unit :=
  (if truthy status then
     let s := status in
     modify (set_state (set_last_error s)) ;;
     if contains "overflow" (lower s)
     then modify (set_state (fun t => set_overflows (overflows t + 1)%Z t))
     else ret tt
   else ret tt) ;;
  let x := column0 indata in
  let rms := block_rms x in
  self <- get ;;
  modify (set_meter_rms
            (_meter_alpha self * rms
             + (1 - _meter_alpha self) * _meter_rms self)) ;;
  self <- get ;;
  modify (set_state (set_rms (_meter_rms self))) ;;
  d <- lift (math_log10 (_meter_rms self + 1e-12)) ;;
  modify (set_state (set_db (20 * d))) ;;
  _write_ring x ;;
  modify (set_state (set_last_cb_ts now)).

(** ** The supervisor loop *)

(** A stream handle. *)
Definition stream := nat.

(** What the outside world answers during one supervisor step. *)
Record Env := mkEnv {
  time_time : float;                    (* time.time() *)
  WasapiSettings : res unit;            (* sd.WasapiSettings(exclusive=False) *)
  query_devices : res (option float);   (* the default_samplerate entry *)
  InputStream : res stream;             (* sd.InputStream(...) *)
  stream_start : res unit;              (* stream.start() *)
  stream_stop : res unit;               (* stream.stop() *)
  stream_close : res unit               (* stream.close() *)
}.

(** What the supervisor does to the outside world. *)
Inductive event :=
| Sleep (d : float)        (* time.sleep(d) *)
| Open (st : stream)       (* sd.InputStream(...) returned st *)
| Start (st : stream)      (* st.start() was called *)
| Stop (st : stream)       (* st.stop() was called *)
| Close (st : stream)      (* st.close() was called *)
| CallbackRaised (e : exn) (* the callback raised into the audio subsystem *).

(** [MicWorker._open_stream]. *)
Definition _open_stream (env : Env) : M stream :=
  let extra :=
    match WasapiSettings env with Ok v => Some v | Raise _ => None end in
  d <- lift (query_devices env) ;;
  self <- get ;;
  modify (set_sr (match d with Some v => py_int v | None => sr self end)) ;;
  self <- get ;;
  modify (set_state (set_sr_used (sr self))) ;;
  modify (set_need (py_int (window_sec self * IZR (sr self)))) ;;
  lift (InputStream env).

(** Lines 152-163: the cadence block of the inner loop. *)
Definition cadence_block : M unit :=
  audio <- _read_latest_window ;;
  let '(label, conf) := ("traffic", 0) in
  let is_emergency := false in
  modify (set_state (set_consecutive_hits 0)) ;;
  modify (set_state (set_label label)) ;;
  modify (set_state (set_conf conf)) ;;
  modify (set_state (set_triggered false)).

(** Line 169: the handler's message. *)
Definition stream_error (e : exn) : string :=
  "Stream error: " ++ exn_name e ++ ": " ++ exn_msg e.

(** Line 149. *)
Definition stall_message : string :=
  "Audio callback stalled. Restarting stream...".

(** Program points of [run_loop]. *)
Inductive pc :=
| AtOuter                                   (* line 137, the outer loop test *)
| AtInner (st : stream) (last_run : float)  (* line 145, the inner loop test *)
| AtExcept (e : exn) (st : option stream)   (* line 168, entering [except] *)
| AtFinally (st : option stream)            (* line 172, entering [finally] *)
| Returned.                                 (* [run_loop] has returned *)

(** Lines 137-143: from the outer loop test up to the inner loop. *)
Definition step_outer (env : Env) (self : MicWorker)
  : MicWorker * pc * list event :=
  if negb (_stop self) then
    match _open_stream env self with
    | (Raise e, self1) => (self1, AtExcept e None, [])
    | (Ok st, self1) =>
        match stream_start env with
        | Raise e => (self1, AtExcept e (Some st), [Open st; Start st])
        | Ok _ =>
            (set_state (set_last_error EmptyString) self1, AtInner st 0,
             [Open st; Start st])
        end
    end
  else (self, Returned, []).

(** Lines 145-166: one pass of the inner loop. *)
Definition step_inner (env : Env) (st : stream) (last_run : float)
    (self : MicWorker) : MicWorker * pc * list event :=
  if negb (_stop self) then
    let now := time_time env in
    if Rnonzero (last_cb_ts (state self))
       && Rgtb (now - last_cb_ts (state self)) 1.5
    then (set_state (set_last_error stall_message) self,
          AtFinally (Some st), [])
    else if Rgeb (now - last_run) (window_sec self)
    then match cadence_block self with
         | (Raise e, self1) => (self1, AtExcept e (Some st), [])
         | (Ok _, self1) => (self1, AtInner st now, [Sleep 0.02])
         end
    else (self, AtInner st last_run, [Sleep 0.02])
  else (self, AtFinally (Some st), []).

(** Lines 168-170: [except Exception as e]. *)
Definition step_except (e : exn) (st : option stream) (self : MicWorker)
  : MicWorker * pc * list event :=
  (set_state (set_last_error (stream_error e)) self,
   AtFinally st, [Sleep 0.5]).

(** Lines 173-178: the teardown, with [except Exception: pass] around it. *)
Definition teardown_body (env : Env) (st : option stream)
  : res unit * list event :=
  match st with
  | None => (Ok tt, [])
  | Some h =>
      match stream_stop env with
      | Raise e => (Raise e, [Stop h])
      | Ok _ => (stream_close env, [Stop h; Close h])
      end
  end.

(** [except Exception: pass]: what the teardown raised is dropped. *)
Definition except_pass (r : res unit * list event) : list event := snd r.

(** Lines 172-181: the [finally] clause. *)
Definition step_finally (env : Env) (st : option stream) (self : MicWorker)
  : MicWorker * pc * list event :=
  let evs := except_pass (teardown_body env st) in
  if negb (_stop self) then (self, AtOuter, evs ++ [Sleep 0.25])
  else (self, AtOuter, evs).

(** The supervisor thread and its worker. *)
Record Sys := mkSys { worker : MicWorker; at_pc : pc }.

(** One step of [run_loop] from its current program point. *)
Definition sup_step (env : Env) (s : Sys) : Sys * list event :=
  let '(self, p, evs) :=
    match at_pc s with
    | AtOuter => step_outer env (worker s)
    | AtInner st last_run => step_inner env st last_run (worker s)
    | AtExcept e st => step_except e st (worker s)
    | AtFinally st => step_finally env st (worker s)
    | Returned => (worker s, Returned, [])
    end in
  (mkSys self p, evs).

(** What can happen to a worker: the audio thread calls back, the owner
    asks to stop, or the supervisor thread takes its next step. *)
Inductive input :=
| Callback (indata : ndarray2) (status : string) (now : float)
| StopRequest
| Supervisor (env : Env).

Definition sys_step (i : input) (s : Sys) : Sys * list event :=
  match i with
  | Callback indata status now =>
      match _callback indata status now (worker s) with
      | (Ok _, self) => (mkSys self (at_pc s), [])
      | (Raise e, self) => (mkSys self (at_pc s), [CallbackRaised e])
      end
  | StopRequest => (mkSys (snd (stop (worker s))) (at_pc s), [])
  | Supervisor env => sup_step env s
  end.

Fixpoint run (inputs : list input) (s : Sys) : Sys * list event :=
  match inputs with
  | [] => (s, [])
  | i :: rest =>
      let '(s1, evs1) := sys_step i s in
      let '(s2, evs2) := run rest s1 in
      (s2, evs1 ++ evs2)
  end.

(** Total time slept in a trace. *)
Definition slept (evs : list event) : float :=
  fold_right (fun e acc => match e with Sleep d => d + acc | _ => acc end)
    0 evs.

(** ** Notions the statements use *)

(** *** The ring buffer *)

(** A sequence of ring-buffer writes. *)
Fixpoint write_all (blocks : list (list float)) : M unit :=
  match blocks with
  | [] => ret tt
  | x :: rest => _write_ring x ;; write_all rest
  end.

(** The window read with the window length [_need] set to [n]. *)
Definition read_window (n : Z) : M (list float) :=
  modify (set_need n) ;; _read_latest_window.

(** A block written as its first [tail] samples, then the rest. *)
Definition write_split (tail : Z) (x : list float) : M unit :=
  _write_ring (slice x None (Some tail)) ;;
  _write_ring (slice x (Some tail) None).

(** *** The callback *)

(** [s] contains [needle] up to the case of its letters. *)
Definition contains_ci (needle s : string) : Prop :=
  exists pre mid post : string,
    s = (pre ++ mid ++ post)%string /\ lower mid = lower needle.

(** The worker after the status test of lines 97-101. *)
Definition after_status (status : string) (self : MicWorker) : MicWorker :=
  if truthy status then
    if contains "overflow" (lower status)
    then set_state (fun t => set_overflows (overflows t + 1)%Z t)
           (set_state (set_last_error status) self)
    else set_state (set_last_error status) self
  else self.

(** The worker after the meter update of lines 105-107. *)
Definition after_meter (x : list float) (self : MicWorker) : MicWorker :=
  let m := _meter_alpha self * block_rms x
           + (1 - _meter_alpha self) * _meter_rms self in
  set_state (set_rms m) (set_meter_rms m self).

(** A run of callbacks; a callback that raises leaves its mutations. *)
Fixpoint callbacks (calls : list (ndarray2 * string * float))
    (self : MicWorker) : MicWorker :=
  match calls with
  | [] => self
  | (indata, status, now) :: rest =>
      callbacks rest (snd (_callback indata status now self))
  end.

(** The instantaneous RMS value of each block of a run of callbacks. *)
Definition block_rms_values (calls : list (ndarray2 * string * float))
  : list float :=
  map (fun c => block_rms (column0 (fst (fst c)))) calls.

(** The closed form of the exponential moving average after the blocks
    [r_0 .. r_k]: the sum over [i <= k] of [a (1-a)^(k-i) r_i]. *)
Definition ema_closed (a : float) (rs : list float) : float :=
  let k := (List.length rs - 1)%nat in
  sum_f_R0 (fun i => a * (1 - a) ^ (k - i) * nth i rs 0) k.

(** The state the callback leaves its ring and meter in. *)
Definition callback_ready (self : MicWorker) : Prop :=
  (0 <= _w self < size (_buf self))%Z
  /\ 0 <= _meter_rms self
  /\ 0 <= _meter_alpha self <= 1.

(** *** Runs of the worker *)

(** Is the status of this callback counted as an overflow (line 100)? *)
Definition overflow_status (i : input) : bool :=
  match i with
  | Callback _ status _ => truthy status && contains "overflow" (lower status)
  | _ => false
  end.

(** A run in which the audio thread never calls back. *)
Definition no_heartbeat (inputs : list input) : Prop :=
  Forall (fun i => match i with Callback _ _ _ => False | _ => True end)
    inputs.

(** The stream the supervisor holds at a program point. *)
Definition held (p : pc) : option stream :=
  match p with
  | AtInner st _ => Some st
  | AtExcept _ st => st
  | AtFinally st => st
  | AtOuter | Returned => None
  end.

(** How many times a trace opens a stream. *)
Definition opens (evs : list event) : nat :=
  List.length
    (filter (fun e => match e with Open _ => true | _ => false end) evs).

(** The classification fields as [SirenState] is created with them. *)
Definition classification_default (self : MicWorker) : Prop :=
  label (state self) = "traffic"
  /\ conf (state self) = 0
  /\ consecutive_hits (state self) = 0%Z
  /\ triggered (state self) = false.

(** *** Workers and worlds of the examples *)

(** A classifier that answers ("siren", 0.9) on every window. *)
Definition demo_infer : list float -> string * float :=
  fun _ => ("siren", 0.9).

(** The worker [__init__] builds for a 100 Hz device and a window of
    [need] samples, with the default threshold 0.85 and 2 hits needed. *)
Definition demo_worker (need : Z) : MicWorker :=
  mkMicWorker 0 demo_infer (IZR need / 100) 0.85 2 100 (SirenState_new 100)
    false need (repeat 0 (Z.to_nat (need * 4))) 0 0 0.20.

(** A worker of capacity 4 whose cursor stands at 2. *)
Definition wrap_worker : MicWorker :=
  set_w 2 (set_buf [1; 2; 3; 4] (demo_worker 1)).

(** A worker of capacity 4 that has had one heartbeat, at time 1. *)
Definition running_worker : MicWorker :=
  set_state (set_last_cb_ts 1) (demo_worker 1).

Definition PortAudioError (msg : string) : exn := mkExn "PortAudioError" msg.

(** An outside world in which every call succeeds: the clock shows [now],
    the device names no sample rate, the stream opened is [st]. *)
Definition calm (now : float) (st : stream) : Env :=
  mkEnv now (Ok tt) (Ok None) (Ok st) (Ok tt) (Ok tt) (Ok tt).

(** An outside world in which the device query fails. *)
Definition no_device (now : float) : Env :=
  mkEnv now (Ok tt) (Raise (PortAudioError "Error querying device"))
    (Ok 7%nat) (Ok tt) (Ok tt) (Ok tt).

(** An outside world in which [stream.stop()] fails. *)
Definition stop_fails (now : float) : Env :=
  mkEnv now (Ok tt) (Ok None) (Ok 7%nat) (Ok tt)
    (Raise (PortAudioError "Error stopping stream")) (Ok tt).

(** *** Further methods and notions *)

(** [MicWorker._rms_db] (lines 64-67); it does not touch the worker. *)
Definition _rms_db (audio : list float) : res (float * float) :=
  let rms := sqrt (np_mean (map (fun v => v * v) audio) + 1e-12) in
  match math_log10 (rms + 1e-12) with
  | Ok d => Ok (rms, 20 * d)
  | Raise e => Raise e
  end.

(** The ring read once round from the cursor: the oldest sample first,
    the newest last. *)
Definition ring_contents (self : MicWorker) : list float :=
  slice (_buf self) (Some (_w self)) None
  ++ slice (_buf self) None (Some (_w self)).

(** How many steps of the supervisor a run holds. *)
Definition sup_steps (inputs : list input) : nat :=
  List.length
    (filter (fun i => match i with Supervisor _ => true | _ => false end)
       inputs).

(** A run in which nobody asks the worker to stop. *)
Definition no_stop_request (inputs : list input) : Prop :=
  Forall (fun i => match i with StopRequest => False | _ => True end) inputs.

(** How many times a trace calls [stop()] on a stream. *)
Definition stops (evs : list event) : nat :=
  List.length
    (filter (fun e => match e with Stop _ => true | _ => false end) evs).

(** How far a program point is from the return of [run_loop] once the
    stop flag is set, in steps of the supervisor. *)
Definition steps_to_return (p : pc) : nat :=
  match p with
  | Returned => 0
  | AtOuter => 1
  | AtFinally _ => 2
  | AtInner _ _ | AtExcept _ _ => 3
  end.

(** 1 if the supervisor holds a stream at a program point, else 0. *)
Definition holding (p : pc) : nat :=
  match held p with Some _ => 1 | None => 0 end.

(** The outside world of [env] with another answer of
    [sd.WasapiSettings]. *)
Definition with_wasapi (r : res unit) (env : Env) : Env :=
  mkEnv (time_time env) r (query_devices env) (InputStream env)
    (stream_start env) (stream_stop env) (stream_close env).

(** An outside world whose device reports the sample rate [rate]. *)
Definition device_rate (rate : float) (st : stream) : Env :=
  mkEnv 0 (Ok tt) (Ok (Some rate)) (Ok st) (Ok tt) (Ok tt) (Ok tt).

(** The first-channel samples a run of callbacks brings in, in order. *)
Definition samples_of (calls : list (ndarray2 * string * float))
  : list float :=
  List.concat (map (fun c => column0 (fst (fst c))) calls).

(** The block of a callback is no longer than [L]. *)
Definition block_fits (L : Z) (i : input) : Prop :=
  match i with
  | Callback indata _ _ => (size (column0 indata) <= L)%Z
  | _ => True
  end.

(** How many callbacks of a trace raised. *)
Definition callbacks_raised (evs : list event) : nat :=
  List.length
    (filter (fun e => match e with CallbackRaised _ => true | _ => false end)
       evs).

(** * Proofs *)

(** ** Slices *)

Local Open Scope Z_scope.

Section SliceFacts.
Context {A : Type}.
Implicit Types l x : list A.

Lemma size_nonneg l : 0 <= size l.
Proof. unfold size. lia. Qed.

Lemma size_zero_nil l : size l = 0 -> l = [].
Proof. destruct l; [reflexivity|]. unfold size. cbn [List.length]. lia. Qed.

Lemma size_app l x : size (l ++ x) = size l + size x.
Proof. unfold size. rewrite length_app. lia. Qed.

Lemma size_firstn l k : 0 <= k <= size l -> size (firstn (Z.to_nat k) l) = k.
Proof. unfold size. intros H. rewrite length_firstn. lia. Qed.

Lemma size_skipn l k : 0 <= k <= size l -> size (skipn (Z.to_nat k) l) = size l - k.
Proof. unfold size. intros H. rewrite length_skipn. lia. Qed.

Lemma size_repeat (v : A) k : 0 <= k -> size (repeat v (Z.to_nat k)) = k.
Proof. unfold size. intros H. rewrite repeat_length. lia. Qed.

Lemma clamp_id L i : 0 <= i <= L -> clamp L i = i.
Proof. unfold clamp. intros H. destruct (i <? 0) eqn:E; lia. Qed.

Lemma slice_to l k : 0 <= k -> slice l None (Some k) = firstn (Z.to_nat k) l.
Proof.
  intros Hk. unfold slice, lo_bound, hi_bound, clamp. simpl.
  destruct (k <? 0) eqn:E; [lia|].
  rewrite Z.sub_0_r.
  destruct (Z.min_spec k (size l)) as [[H1 ->]|[H1 ->]]; [reflexivity|].
  unfold size in *. rewrite !firstn_all2 by lia. reflexivity.
Qed.

Lemma slice_from l k : 0 <= k -> slice l (Some k) None = skipn (Z.to_nat k) l.
Proof.
  intros Hk. unfold slice, lo_bound, hi_bound, clamp.
  destruct (k <? 0) eqn:E; [lia|].
  destruct (Z.min_spec k (size l)) as [[H1 ->]|[H1 ->]].
  - apply firstn_all2. unfold size in *. rewrite length_skipn. lia.
  - unfold size in *. rewrite !skipn_all2 by lia. now rewrite firstn_nil.
Qed.

Lemma slice_range l a b :
  0 <= a <= b -> b <= size l ->
  slice l (Some a) (Some b) = firstn (Z.to_nat (b - a)) (skipn (Z.to_nat a) l).
Proof.
  intros Ha Hb. unfold slice, lo_bound, hi_bound.
  rewrite !clamp_id by lia. reflexivity.
Qed.

Lemma set_slice_fits l a b src lo hi :
  lo_bound (size l) a = lo -> hi_bound (size l) b = hi -> lo <= hi ->
  size src = hi - lo ->
  set_slice l a b src
  = Ok (firstn (Z.to_nat lo) l ++ src ++ skipn (Z.to_nat hi) l).
Proof.
  intros Hlo Hhi Hle Hs. unfold set_slice. rewrite Hlo, Hhi.
  replace (Z.max (hi - lo) 0) with (hi - lo) by lia.
  rewrite (proj2 (Z.eqb_eq _ _) Hs).
  now replace (lo + (hi - lo)) with hi by lia.
Qed.

Lemma set_slice_misfit l a b src lo hi :
  lo_bound (size l) a = lo -> hi_bound (size l) b = hi ->
  size src <> Z.max (hi - lo) 0 -> size src <> 1 ->
  set_slice l a b src = Raise (ValueError "could not broadcast input array").
Proof.
  intros Hlo Hhi Hs H1. unfold set_slice. rewrite Hlo, Hhi.
  rewrite (proj2 (Z.eqb_neq _ _) Hs).
  destruct src as [|v [|v' src]]; try reflexivity.
  exfalso. apply H1. reflexivity.
Qed.
End SliceFacts.

(** ** The ring write *)

Lemma py_mod_pos a b : 0 < b -> py_mod a b = Ok (a mod b).
Proof. intros H. unfold py_mod. destruct (b =? 0) eqn:E; [lia|reflexivity]. Qed.

Ltac run_M := unfold bind, get, modify, lift, ret; cbn [fst snd].

(** The buffer after a write that does not cross the end. *)
Lemma write_ring_flat (x : list float) (self : MicWorker) :
  let w := _w self in
  let L := size (_buf self) in
  0 <= w -> 0 < size x -> w + size x <= L ->
  _write_ring x self
  = (Ok tt,
     set_w ((w + size x) mod L)
       (set_buf (firstn (Z.to_nat w) (_buf self) ++ x
                 ++ skipn (Z.to_nat (w + size x)) (_buf self)) self)).
Proof.
  intros w L Hw Hn Hend. unfold _write_ring.
  destruct (size x <=? 0) eqn:E0; [lia|].
  run_M.
  destruct (_w self + size x <=? size (_buf self)) eqn:E1; [|subst w L; lia].
  rewrite (set_slice_fits _ _ _ _ w (w + size x)).
  - rewrite py_mod_pos by (subst w L; lia). reflexivity.
  - apply clamp_id. subst w L. lia.
  - apply clamp_id. subst w L. lia.
  - lia.
  - lia.
Qed.

(** The buffer after a write that crosses the end and fits. *)
Lemma write_ring_wrapped (x : list float) (self : MicWorker) :
  let w := _w self in
  let L := size (_buf self) in
  0 <= w < L -> L < w + size x -> w + size x <= 2 * L ->
  _write_ring x self
  = (Ok tt,
     set_w ((w + size x) mod L)
       (set_buf (skipn (Z.to_nat (L - w)) x
                 ++ skipn (Z.to_nat (w + size x - L))
                      (firstn (Z.to_nat w) (_buf self)
                       ++ firstn (Z.to_nat (L - w)) x)) self)).
Proof.
  intros w L Hw Hwrap Hfit. unfold _write_ring.
  destruct (size x <=? 0) eqn:E0; [lia|].
  run_M.
  destruct (_w self + size x <=? size (_buf self)) eqn:E1; [subst w L; lia|].
  fold w L.
  rewrite slice_to, slice_from by lia.
  rewrite (set_slice_fits _ _ _ _ w L); cycle 1.
  - apply clamp_id. lia.
  - reflexivity.
  - lia.
  - rewrite size_firstn; lia.
  - rewrite skipn_all2 by (unfold L, size; lia). rewrite app_nil_r.
    set (b1 := firstn (Z.to_nat w) (_buf self) ++ firstn (Z.to_nat (L - w)) x).
    assert (Hb1 : size b1 = L).
    { unfold b1. rewrite size_app, !size_firstn; lia. }
    cbn [_buf set_buf].
    rewrite (set_slice_fits _ _ _ _ 0 (w + size x - L)); cycle 1.
    + reflexivity.
    + cbn [hi_bound]. apply clamp_id. lia.
    + lia.
    + rewrite size_skipn; lia.
    + cbn [firstn Z.to_nat app]. rewrite py_mod_pos by lia. reflexivity.
Qed.

(** A block whose wrapped part is longer than the buffer is refused by
    the second slice assignment: the tail segment has been written, the
    cursor has not moved. *)
Lemma write_ring_too_long (x : list float) (self : MicWorker) :
  let w := _w self in
  let L := size (_buf self) in
  0 <= w < L -> 2 * L < w + size x ->
  _write_ring x self
  = (Raise (ValueError "could not broadcast input array"),
     set_buf (firstn (Z.to_nat w) (_buf self)
              ++ firstn (Z.to_nat (L - w)) x) self).
Proof.
  intros w L Hw Hlong. unfold _write_ring.
  destruct (size x <=? 0) eqn:E0; [lia|].
  run_M.
  destruct (_w self + size x <=? size (_buf self)) eqn:E1; [subst w L; lia|].
  fold w L.
  rewrite slice_to, slice_from by lia.
  rewrite (set_slice_fits _ _ _ _ w L); cycle 1.
  - apply clamp_id. lia.
  - reflexivity.
  - lia.
  - rewrite size_firstn; lia.
  - rewrite skipn_all2 by (unfold L, size; lia). rewrite app_nil_r.
    set (b1 := firstn (Z.to_nat w) (_buf self) ++ firstn (Z.to_nat (L - w)) x).
    assert (Hb1 : size b1 = L).
    { unfold b1. rewrite size_app, !size_firstn; lia. }
    cbn [_buf set_buf].
    rewrite (set_slice_misfit _ _ _ _ 0 L); cycle 1.
    + reflexivity.
    + cbn [hi_bound]. unfold clamp. rewrite Hb1.
      destruct (w + size x - L <? 0) eqn:E; lia.
    + rewrite size_skipn; lia.
    + rewrite size_skipn; lia.
    + reflexivity.
Qed.

Lemma write_ring_empty (x : list float) (self : MicWorker) :
  size x = 0 -> _write_ring x self = (Ok tt, self).
Proof. intros H. unfold _write_ring. rewrite H. reflexivity. Qed.

(** Whether the ring write returns, and that it keeps the capacity and
    the cursor in range. *)
Lemma write_ring_outcome (x : list float) (self : MicWorker) :
  let w := _w self in
  let L := size (_buf self) in
  0 <= w < L ->
  fst (_write_ring x self)
  = (if w + size x <=? 2 * L then Ok tt
     else Raise (ValueError "could not broadcast input array"))
  /\ size (_buf (snd (_write_ring x self))) = L
  /\ 0 <= _w (snd (_write_ring x self)) < L.
Proof.
  intros w L Hw. pose proof (size_nonneg x) as Hx.
  destruct (w + size x <=? 2 * L) eqn:Efit.
  - destruct (Z.eq_dec (size x) 0) as [H0|H0].
    { rewrite write_ring_empty by assumption. cbn [fst snd]. fold w L.
      repeat split; lia. }
    destruct (Z_le_gt_dec (w + size x) L) as [Hflat|Hwrap].
    + rewrite write_ring_flat by (fold w L; lia). fold w L.
      cbn [fst snd _buf _w set_w set_buf]. split; [reflexivity|]. split.
      * rewrite !size_app, size_firstn, size_skipn by (fold L; lia).
        fold L. lia.
      * apply Z.mod_pos_bound. lia.
    + rewrite write_ring_wrapped by (fold w L; lia). fold w L.
      cbn [fst snd _buf _w set_w set_buf]. split; [reflexivity|]. split.
      * rewrite size_app, size_skipn by lia.
        rewrite size_skipn; rewrite size_app, !size_firstn; fold L; lia.
      * apply Z.mod_pos_bound. lia.
  - rewrite write_ring_too_long by (fold w L; lia). fold w L.
    cbn [fst snd _buf _w set_buf]. split; [reflexivity|]. split.
    + rewrite size_app, !size_firstn; fold L; lia.
    + fold w. lia.
Qed.

(** ** Sequences of writes and the window read *)

Lemma write_all_filled (blocks : list (list float)) :
  forall (self : MicWorker) (D rest : list float),
    let L := size (_buf self) in
    0 < L ->
    _buf self = D ++ rest ->
    _w self = size D mod L ->
    size D + size (List.concat blocks) <= L ->
    exists self' rest',
      write_all blocks self = (Ok tt, self')
      /\ _buf self' = (D ++ List.concat blocks) ++ rest'
      /\ _w self' = size (D ++ List.concat blocks) mod L
      /\ size (_buf self') = L.
Proof.
  induction blocks as [|x blocks IH]; intros self D rest L HL Hbuf Hw Htot.
  - exists self, rest. cbn [List.concat]. rewrite app_nil_r. repeat split; assumption.
  - cbn [List.concat] in *. rewrite size_app in Htot.
    pose proof (size_nonneg x) as Hx.
    pose proof (size_nonneg (List.concat blocks)) as Hc.
    pose proof (size_nonneg D) as HD.
    cbn [write_all]. unfold bind at 1.
    destruct (Z.eq_dec (size x) 0) as [Hx0|Hx0].
    + rewrite write_ring_empty by assumption.
      pose proof Hx0 as Hnil. apply size_zero_nil in Hx0 as ->.
      cbn [app]. apply (IH self D rest); try assumption; fold L; lia.
    + assert (Hw' : _w self = size D) by (rewrite Hw; apply Z.mod_small; lia).
      rewrite write_ring_flat by (fold L; lia).
      fold L. rewrite Hw'.
      set (self1 := set_w _ _).
      assert (Hb1 : _buf self1 = (D ++ x) ++ skipn (Z.to_nat (size x)) rest).
      { unfold self1. cbn [_buf set_w set_buf]. rewrite Hbuf.
        rewrite firstn_app, skipn_app.
        replace (Z.to_nat (size D) - List.length D)%nat with 0%nat by (unfold size; lia).
        replace (Z.to_nat (size D + size x) - List.length D)%nat
          with (Z.to_nat (size x)) by (unfold size; lia).
        rewrite firstn_all2 by (unfold size; lia).
        rewrite skipn_all2 by (unfold size; lia).
        cbn [firstn app]. rewrite app_nil_r, <- app_assoc. reflexivity. }
      assert (HL1 : size (_buf self1) = L).
      { rewrite Hb1, !size_app, size_skipn.
        - unfold L. rewrite Hbuf, size_app. lia.
        - assert (size rest = L - size D) by (unfold L; rewrite Hbuf, size_app; lia). lia. }
      destruct (IH self1 (D ++ x) (skipn (Z.to_nat (size x)) rest))
        as (self' & rest' & Hrun & Hb' & Hw2 & HL');
        try (rewrite HL1); try assumption.
      * unfold self1. cbn [_w set_w]. rewrite size_app. reflexivity.
      * rewrite size_app. lia.
      * exists self', rest'. rewrite HL1 in *.
        rewrite <- !app_assoc in *. repeat split; assumption.
Qed.

Lemma read_window_filled (self : MicWorker) (D rest : list float) (n : Z) :
  let L := size (_buf self) in
  _buf self = D ++ rest ->
  _w self = size D mod L ->
  size D <= L ->
  1 <= n <= size D ->
  fst (read_window n self) = Ok (lastn n D).
Proof.
  intros L Hbuf Hw HD Hn.
  unfold read_window, _read_latest_window. unfold bind, get, modify, lift, ret.
  cbn [_buf _w _need set_need fst snd]. fold L.
  rewrite py_mod_pos by lia.
  assert (Hrest : size rest = L - size D) by (unfold L; rewrite Hbuf, size_app; lia).
  destruct (Z.eq_dec (size D) L) as [Hfull|Hpart].
  - assert (rest = []) as -> by (apply size_zero_nil; lia).
    rewrite app_nil_r in Hbuf.
    rewrite Hw, Hfull, Z_mod_same_full. cbn [Z.sub Z.opp].
    replace (0 - n) with (-n) by lia.
    assert (Hs : - n mod L = L - n).
    { symmetry. apply (Z.mod_unique_pos _ _ (-1)); lia. }
    rewrite Hs.
    destruct (L - n <? 0) eqn:E; [lia|]. cbn [fst].
    rewrite slice_from, slice_to by lia. cbn [Z.to_nat firstn].
    rewrite app_nil_r, Hbuf. unfold lastn. rewrite Hfull. reflexivity.
  - assert (Hw' : _w self = size D) by (rewrite Hw; apply Z.mod_small; pose proof (size_nonneg D); lia).
    rewrite Hw'.
    rewrite Z.mod_small by lia.
    destruct (size D - n <? size D) eqn:E; [|lia]. cbn [fst].
    rewrite slice_range by (fold L; lia).
    rewrite Hbuf. unfold lastn. f_equal.
    rewrite skipn_app.
    replace (Z.to_nat (size D - n) - List.length D)%nat with 0%nat by (unfold size; lia).
    cbn [skipn].
    replace (size D - (size D - n)) with n by lia.
    rewrite firstn_app.
    rewrite firstn_all2 by (rewrite length_skipn; unfold size in *; lia).
    replace (Z.to_nat n - List.length (skipn (Z.to_nat (size D - n)) D))%nat with 0%nat
      by (rewrite length_skipn; unfold size in *; lia).
    cbn [firstn]. now rewrite app_nil_r.
Qed.

(** *** Construction *)

Lemma py_int_IZR (z : Z) : 0 <= z -> py_int (IZR z) = z.
Proof.
  intros Hz. unfold py_int.
  destruct (Rle_dec 0 (IZR z)) as [_|H].
  - symmetry. apply Int_part_spec. lra.
  - exfalso. apply H. now apply IZR_le.
Qed.

Lemma demo_worker_init (need : Z) :
  0 <= need ->
  MicWorker_init (Ok None) (fun _ => None) 0 demo_infer
    (IZR need / 100)%R (Some 100) 0.85%R 2
  = Ok (demo_worker need).
Proof.
  intros H. unfold MicWorker_init, np_zeros, demo_worker.
  replace (IZR need / 100 * 100)%R with (IZR need) by (field).
  rewrite py_int_IZR by assumption.
  destruct (need * 4 <? 0) eqn:E; [lia|reflexivity].
Qed.

(** ** C1: the latest window *)

(** C1, as the code has it. From a cursor at 0, after any sequence of
    writes whose total length is at most the capacity, and for every [n]
    with [1 <= n <= need] and at least [n] samples written, reading the
    window of length [n] returns exactly the last [n] samples written, in
    order. With capacity 400 and need 100, four blocks of 100 zeros and
    one block of 100 ones make the window read return 100 ones. *)
Theorem read_window_last_n :
  (forall (self : MicWorker) (blocks : list (list float)) (n : Z),
      _w self = 0 ->
      size (List.concat blocks) <= size (_buf self) ->
      1 <= n -> n <= _need self -> n <= size (List.concat blocks) ->
      fst (write_all blocks self) = Ok tt
      /\ fst (read_window n (snd (write_all blocks self)))
         = Ok (lastn n (List.concat blocks)))
  /\ (let zeros := repeat 0%R 100 in
      let ones := repeat 1%R 100 in
      let self := demo_worker 100 in
      size (_buf self) = 400 /\ _need self = 100
      /\ fst (_read_latest_window
                (snd (write_all [zeros; zeros; zeros; zeros; ones] self)))
         = Ok ones).
Proof.
  split.
  - intros self blocks n Hw Htot Hn _ Hlast.
    destruct (write_all_filled blocks self [] (_buf self))
      as (self' & rest' & Hrun & Hbuf & Hw' & HL).
    + lia.
    + reflexivity.
    + rewrite Hw. reflexivity.
    + exact Htot.
    + rewrite Hrun. cbn [fst snd]. split; [reflexivity|].
      cbn [app] in Hbuf, Hw'.
      apply (read_window_filled self' (List.concat blocks) rest' n).
      * exact Hbuf.
      * rewrite HL. exact Hw'.
      * rewrite HL. exact Htot.
      * lia.
  - cbv zeta. repeat split; reflexivity.
Qed.

Lemma read_window_last_n_witness :
  let self := demo_worker 1 in
  let blocks := [[1%R; 2%R]; [3%R]] in
  (_w self = 0
   /\ size (List.concat blocks) <= size (_buf self)
   /\ 1 <= 1 /\ 1 <= _need self /\ 1 <= size (List.concat blocks))
  /\ fst (read_window 1 (snd (write_all blocks self))) = Ok [3%R].
Proof.
  intros self blocks.
  assert (H : _w self = 0
              /\ size (List.concat blocks) <= size (_buf self)
              /\ 1 <= 1 /\ 1 <= _need self
              /\ 1 <= size (List.concat blocks))
    by (cbv; intuition discriminate).
  split; [exact H|].
  destruct H as (H1 & H2 & H3 & H4 & H5).
  exact (proj2 (proj1 read_window_last_n self blocks 1 H1 H2 H3 H4 H5)).
Defined.

(** C1 as stated fails at [n = 0]: with capacity 4 and one sample
    written, the window of length 0 is read as the whole buffer, four
    samples, and not as the empty list. *)
Lemma read_window_zero_counterexample :
  let self := demo_worker 1 in
  let blocks := [[1%R]] in
  _w self = 0
  /\ size (List.concat blocks) <= size (_buf self)
  /\ 0 <= _need self
  /\ 0 <= size (List.concat blocks)
  /\ fst (write_all blocks self) = Ok tt
  /\ fst (read_window 0 (snd (write_all blocks self)))
     = Ok [0%R; 0%R; 0%R; 1%R]
  /\ fst (read_window 0 (snd (write_all blocks self)))
     <> Ok (lastn 0 (List.concat blocks)).
Proof.
  cbv zeta. repeat split; try reflexivity; try (cbv; discriminate).
Qed.

(** *** The split write *)

Lemma write_split_wrapped (x : list float) (self : MicWorker) :
  let w := _w self in
  let L := size (_buf self) in
  0 <= w < L -> L < w + size x -> w + size x <= 2 * L ->
  write_split (L - w) x self
  = (Ok tt,
     set_w ((w + size x) mod L)
       (set_buf (skipn (Z.to_nat (L - w)) x
                 ++ skipn (Z.to_nat (w + size x - L))
                      (firstn (Z.to_nat w) (_buf self)
                       ++ firstn (Z.to_nat (L - w)) x)) self)).
Proof.
  intros w L Hw Hwrap Hfit. unfold write_split.
  rewrite slice_to, slice_from by lia.
  unfold bind at 1.
  rewrite write_ring_flat; fold w L; rewrite ?size_firstn; try lia.
  replace (w + (L - w)) with L by ring.
  rewrite Z_mod_same_full.
  rewrite (skipn_all2 (_buf self)) by (unfold L, size; lia). rewrite app_nil_r.
  set (b1 := firstn (Z.to_nat w) (_buf self) ++ firstn (Z.to_nat (L - w)) x).
  assert (Hb1 : size b1 = L).
  { unfold b1. rewrite size_app, !size_firstn; lia. }
  rewrite write_ring_flat; cbn [_w _buf set_w set_buf];
    rewrite ?Hb1, ?size_skipn; try lia.
  cbn [Z.to_nat firstn app Z.add].
  replace (size x - (L - w)) with (w + size x - L) by ring.
  assert (Hmod : (w + size x - L) mod L = (w + size x) mod L).
  { rewrite <- (Z.mod_add (w + size x - L) 1 L) by lia. f_equal. ring. }
  rewrite Hmod. reflexivity.
Qed.

(** ** C5: split-write equivalence *)

(** C5, as the code has it. With the cursor [w] inside a buffer of
    capacity [L], writing a block of [n] samples that crosses the end of
    the buffer and whose wrapped part fits ([L < w + n <= 2 L]) returns,
    and leaves the same worker (buffer and cursor) as writing its first
    [L - w] samples and then the remaining ones; the cursor ends at
    [(w + n) mod L]. A zero-length write changes nothing. *)
Theorem split_write_equivalence (x : list float) (self : MicWorker) :
  (size x = 0 -> _write_ring x self = (Ok tt, self))
  /\ (let w := _w self in
      let L := size (_buf self) in
      0 <= w < L -> L < w + size x -> w + size x <= 2 * L ->
      _write_ring x self = write_split (L - w) x self
      /\ fst (_write_ring x self) = Ok tt
      /\ _w (snd (_write_ring x self)) = (w + size x) mod L).
Proof.
  split.
  - apply write_ring_empty.
  - intros w L Hw Hwrap Hfit. subst w L.
    rewrite write_split_wrapped by assumption.
    rewrite write_ring_wrapped by assumption.
    repeat split.
Qed.

Lemma split_write_equivalence_witness :
  let x := [5%R; 6%R; 7%R] in
  let self := wrap_worker in
  (0 <= _w self < size (_buf self)
   /\ size (_buf self) < _w self + size x
   /\ _w self + size x <= 2 * size (_buf self))
  /\ _write_ring x self = write_split (size (_buf self) - _w self) x self
  /\ _buf (snd (_write_ring x self)) = [7%R; 2%R; 5%R; 6%R]
  /\ _w (snd (_write_ring x self)) = 1.
Proof.
  intros x self.
  assert (H : 0 <= _w self < size (_buf self)
              /\ size (_buf self) < _w self + size x
              /\ _w self + size x <= 2 * size (_buf self))
    by (cbv; intuition discriminate).
  split; [exact H|].
  destruct H as (H1 & H2 & H3).
  destruct (proj2 (split_write_equivalence x self) H1 H2 H3) as (E & _ & _).
  split; [exact E|]. split; reflexivity.
Defined.

(** C5 as stated fails for a block whose wrapped part is longer than the
    buffer: capacity 4, cursor 2, seven samples. The single write raises
    after writing the tail segment and leaves the cursor at 2; the two
    sub-block writes both return and leave the cursor at 1. *)
Lemma split_write_counterexample :
  let x := [5%R; 6%R; 7%R; 8%R; 9%R; 10%R; 11%R] in
  let self := wrap_worker in
  let w := _w self in
  let L := size (_buf self) in
  L < w + size x
  /\ fst (_write_ring x self)
     = Raise (ValueError "could not broadcast input array")
  /\ _w (snd (_write_ring x self)) = 2
  /\ fst (write_split (L - w) x self) = Ok tt
  /\ _w (snd (write_split (L - w) x self)) = 1
  /\ _buf (snd (write_split (L - w) x self)) = [11%R; 8%R; 9%R; 10%R]
  /\ _write_ring x self <> write_split (L - w) x self.
Proof.
  cbv zeta. repeat split; try reflexivity.
  intros H. apply (f_equal fst) in H. cbv in H. discriminate H.
Qed.

Local Open Scope R_scope.

(** ** The callback *)

(** *** Strings *)

Lemma prefix_app (p s : string) :
  prefix p s = true <-> exists post, s = (p ++ post)%string.
Proof.
  revert s. induction p as [|c p IH]; intros s; cbn [prefix].
  - split; [intros _; now exists s|now destruct s].
  - destruct s as [|d s].
    + split; [discriminate|intros [post H]; discriminate H].
    + cbn [prefix]. destruct (ascii_dec c d) as [->|Hne].
      * rewrite IH. split; intros [post H]; exists post.
        -- cbn. now rewrite H.
        -- cbn in H. now inversion H.
      * split; [discriminate|]. intros [post H]. cbn in H.
        injection H as Hd _. congruence.
Qed.

Lemma contains_app (needle s : string) :
  contains needle s = true
  <-> exists pre post, s = (pre ++ needle ++ post)%string.
Proof.
  induction s as [|c s IH]; cbn [contains].
  - destruct (prefix needle EmptyString) eqn:E.
    + split; [intros _|reflexivity].
      apply prefix_app in E as [post H]. exists EmptyString, post. exact H.
    + split; [discriminate|]. intros (pre & post & H).
      destruct pre; cbn in H.
      * assert (prefix needle EmptyString = true) by (apply prefix_app; now exists post).
        congruence.
      * discriminate H.
  - destruct (prefix needle (String c s)) eqn:E.
    + split; [intros _|reflexivity].
      apply prefix_app in E as [post H]. exists EmptyString, post. exact H.
    + rewrite IH. split; intros (pre & post & H).
      * exists (String c pre), post. cbn. now rewrite H.
      * destruct pre as [|d pre]; cbn in H.
        -- assert (prefix needle (String c s) = true)
             by (apply prefix_app; now exists post).
           congruence.
        -- inversion H. now exists pre, post.
Qed.

Lemma lower_app (a b : string) :
  lower (a ++ b) = (lower a ++ lower b)%string.
Proof. induction a as [|c a IH]; cbn; [reflexivity|now rewrite IH]. Qed.

Lemma lower_split (a b s : string) :
  lower s = (a ++ b)%string ->
  exists s1 s2, s = (s1 ++ s2)%string /\ lower s1 = a /\ lower s2 = b.
Proof.
  revert s. induction a as [|c a IH]; intros s H.
  - exists EmptyString, s. repeat split. exact H.
  - destruct s as [|d s]; cbn in H; [discriminate H|].
    inversion H as [[Hc Hs]].
    destruct (IH s Hs) as (s1 & s2 & -> & H1 & H2).
    exists (String d s1), s2. cbn. rewrite H1. repeat split; assumption.
Qed.

(** The test of line 100 is containment up to case. *)
Lemma contains_lower_ci (needle s : string) :
  lower needle = needle ->
  contains needle (lower s) = true <-> contains_ci needle s.
Proof.
  intros Hn. rewrite contains_app. unfold contains_ci. split.
  - intros (pre & post & H).
    apply lower_split in H as (s1 & s23 & -> & H1 & H23).
    apply lower_split in H23 as (s2 & s3 & -> & H2 & H3).
    exists s1, s2, s3. split; [reflexivity|congruence].
  - intros (pre & mid & post & -> & H).
    exists (lower pre), (lower post).
    rewrite !lower_app. congruence.
Qed.

(** *** What the ring write leaves alone *)

Lemma write_ring_frame (x : list float) (self : MicWorker) :
  exists b w, snd (_write_ring x self) = set_w w (set_buf b self).
Proof.
  unfold _write_ring.
  destruct (size x <=? 0)%Z.
  { exists (_buf self), (_w self). now destruct self. }
  unfold bind, get, modify, lift, ret.
  destruct (_w self + size x <=? size (_buf self))%Z.
  - destruct (set_slice _ _ _ x) as [b|e]; cbn [snd].
    + destruct (py_mod _ _) as [w|e]; cbn [snd].
      * now exists b, w.
      * exists b, (_w self). now destruct self.
    + exists (_buf self), (_w self). now destruct self.
  - destruct (set_slice (_buf self) _ _ _) as [b1|e]; cbn [snd].
    + destruct (set_slice b1 _ _ _) as [b2|e]; cbn [snd].
      * destruct (py_mod _ _) as [w|e]; cbn [snd].
        -- now exists b2, w.
        -- exists b2, (_w self). now destruct self.
      * exists b1, (_w self). now destruct self.
    + exists (_buf self), (_w self). now destruct self.
Qed.

Lemma write_ring_state (x : list float) (self : MicWorker) :
  state (snd (_write_ring x self)) = state self
  /\ _meter_rms (snd (_write_ring x self)) = _meter_rms self
  /\ _meter_alpha (snd (_write_ring x self)) = _meter_alpha self
  /\ _stop (snd (_write_ring x self)) = _stop self.
Proof.
  destruct (write_ring_frame x self) as (b & w & ->). repeat split.
Qed.

(** *** The callback, field by field *)

Lemma callback_unfold (indata : ndarray2) (status : string) (now : float)
    (self : MicWorker) :
  let s1 := after_meter (column0 indata) (after_status status self) in
  _callback indata status now self
  = match math_log10 (_meter_rms s1 + 1e-12) with
    | Raise e => (Raise e, s1)
    | Ok d =>
        match _write_ring (column0 indata) (set_state (set_db (20 * d)) s1) with
        | (Ok _, s2) => (Ok tt, set_state (set_last_cb_ts now) s2)
        | (Raise e, s2) => (Raise e, s2)
        end
    end.
Proof.
  unfold _callback, after_meter, after_status.
  unfold bind, get, modify, lift, ret.
  destruct (truthy status); [destruct (contains _ _)|]; cbn [fst snd];
    destruct (math_log10 _); try reflexivity;
    destruct (_write_ring _ _) as [[[]|e] s2]; reflexivity.
Qed.

(** Past the status test the callback touches neither [last_error] nor
    [overflows]; past the meter update it does not touch the meter. *)
Lemma callback_fields (indata : ndarray2) (status : string) (now : float)
    (self : MicWorker) :
  let self' := snd (_callback indata status now self) in
  let s0 := after_status status self in
  let s1 := after_meter (column0 indata) s0 in
  last_error (state self') = last_error (state s0)
  /\ overflows (state self') = overflows (state s0)
  /\ _meter_rms self' = _meter_rms s1
  /\ _meter_alpha self' = _meter_alpha self
  /\ rms (state self') = _meter_rms s1
  /\ _stop self' = _stop self.
Proof.
  cbv zeta. rewrite callback_unfold. cbv zeta.
  set (s0 := after_status status self).
  assert (Ha : _meter_alpha s0 = _meter_alpha self /\ _stop s0 = _stop self).
  { unfold s0, after_status.
    destruct (truthy status); [destruct (contains _ _)|]; split; reflexivity. }
  destruct Ha as [Ha Hs].
  set (s1 := after_meter (column0 indata) s0).
  destruct (math_log10 _) as [d|e]; cbn [snd].
  - set (s1' := set_state (set_db (20 * d)) s1).
    destruct (write_ring_state (column0 indata) s1') as (H1 & H2 & H3 & H4).
    destruct (_write_ring (column0 indata) s1') as [[[]|e] s2];
      cbn [snd] in *; cbn [state set_state last_error overflows rms _stop
                           set_last_cb_ts _meter_rms _meter_alpha];
      rewrite ?H1, ?H2, ?H3, ?H4; repeat split; assumption.
  - repeat split; assumption.
Qed.

(** ** C6: the overflow counter *)

(** C6. For a callback with a non-empty status string, the overflow
    counter goes up by one exactly when the status contains "overflow" up
    to case; the status is copied verbatim into [last_error]; a status
    without "overflow" leaves the counter as it was. An empty status
    changes neither field. *)
Theorem overflow_counter_iff (indata : ndarray2) (status : string)
    (now : float) (self : MicWorker) :
  let self' := snd (_callback indata status now self) in
  (status <> EmptyString ->
   last_error (state self') = status
   /\ (overflows (state self') = (overflows (state self) + 1)%Z
       <-> contains_ci "overflow" status)
   /\ (~ contains_ci "overflow" status ->
       overflows (state self') = overflows (state self)))
  /\ (status = EmptyString ->
      last_error (state self') = last_error (state self)
      /\ overflows (state self') = overflows (state self)).
Proof.
  cbv zeta.
  destruct (callback_fields indata status now self) as (He & Ho & _).
  rewrite He, Ho. unfold after_status.
  pose proof (contains_lower_ci "overflow" status eq_refl) as Hci.
  split.
  - intros Hne. destruct status as [|c status]; [contradiction|].
    cbn [truthy].
    destruct (contains "overflow" (lower (String c status))) eqn:E.
    + cbn. split; [reflexivity|]. split.
      * split; [intros _; now apply Hci|reflexivity].
      * intros Hn. exfalso. apply Hn. now apply Hci.
    + cbn. split; [reflexivity|]. split.
      * split; [lia|]. intros H. apply Hci in H. discriminate H.
      * reflexivity.
  - intros ->. cbn. split; reflexivity.
Qed.

Lemma overflow_counter_iff_witness :
  let self := demo_worker 1 in
  let self' := snd (_callback (mkBlock [0] []) "input OVERFLOW" 1 self) in
  "input OVERFLOW" <> EmptyString
  /\ last_error (state self') = "input OVERFLOW"
  /\ overflows (state self') = 1%Z
  /\ contains_ci "overflow" "input OVERFLOW".
Proof.
  intros self self'.
  assert (Hne : "input OVERFLOW" <> EmptyString) by discriminate.
  split; [exact Hne|].
  destruct (proj1 (overflow_counter_iff (mkBlock [0] []) "input OVERFLOW" 1 self) Hne)
    as (H1 & H2 & _).
  split; [exact H1|].
  assert (Hci : contains_ci "overflow" "input OVERFLOW").
  { exists "input ", "OVERFLOW", EmptyString. split; reflexivity. }
  split; [|exact Hci].
  apply H2 in Hci. exact Hci.
Defined.

(** *** The level meter *)

Lemma block_rms_nonneg (x : list float) : 0 <= block_rms x.
Proof. unfold block_rms. apply sqrt_pos. Qed.

(** One more block: the closed form obeys the meter's recurrence. *)
Lemma ema_closed_snoc (a r : float) (rs : list float) :
  ema_closed a (rs ++ [r]) = a * r + (1 - a) * ema_closed a rs.
Proof.
  unfold ema_closed. rewrite length_app. cbn [List.length].
  destruct (List.length rs) as [|n] eqn:Hlen.
  - apply length_zero_iff_nil in Hlen. subst rs. cbn. lra.
  - replace (S n + 1 - 1)%nat with (S n) by lia.
    replace (S n - 1)%nat with n by lia.
    cbn [sum_f_R0].
    rewrite Nat.sub_diag, app_nth2 by lia.
    rewrite Hlen, Nat.sub_diag. cbn [nth pow].
    rewrite scal_sum.
    rewrite (sum_eq _ (fun i => a * (1 - a) ^ (n - i) * nth i rs 0 * (1 - a)) n).
    + lra.
    + intros i Hi. rewrite app_nth1 by lia.
      replace (S n - i)%nat with (S (n - i)) by lia. cbn [pow]. ring.
Qed.

Lemma callbacks_snoc (calls : list (ndarray2 * string * float))
    (indata : ndarray2) (status : string) (now : float) (self : MicWorker) :
  callbacks (calls ++ [(indata, status, now)]) self
  = snd (_callback indata status now (callbacks calls self)).
Proof.
  revert self. induction calls as [|[[i s] n] calls IH]; intros self.
  - reflexivity.
  - cbn [callbacks app]. apply IH.
Qed.

Lemma callback_meter (indata : ndarray2) (status : string) (now : float)
    (self : MicWorker) :
  let self' := snd (_callback indata status now self) in
  _meter_rms self'
  = _meter_alpha self * block_rms (column0 indata)
    + (1 - _meter_alpha self) * _meter_rms self
  /\ rms (state self') = _meter_rms self'
  /\ _meter_alpha self' = _meter_alpha self.
Proof.
  destruct (callback_fields indata status now self) as (_ & _ & Hm & Ha & Hr & _).
  cbv zeta in *. rewrite Hr, Hm, Ha.
  assert (E : forall s, _meter_rms (after_status status s) = _meter_rms s
                        /\ _meter_alpha (after_status status s) = _meter_alpha s).
  { intros s. unfold after_status.
    destruct (truthy status); [destruct (contains _ _)|]; split; reflexivity. }
  unfold after_meter. cbn [_meter_rms set_state set_meter_rms].
  destruct (E self) as [-> ->]. repeat split.
Qed.

(** With a non-negative meter the logarithm is defined, and the callback
    publishes the level of the meter it has just updated. *)
Lemma callback_db (indata : ndarray2) (status : string) (now : float)
    (self : MicWorker) :
  let self' := snd (_callback indata status now self) in
  0 <= _meter_rms self -> 0 <= _meter_alpha self <= 1 ->
  0 <= _meter_rms self'
  /\ db (state self') = 20 * log10 (_meter_rms self' + 1e-12).
Proof.
  intros self' Hm Ha.
  destruct (callback_meter indata status now self) as (Hm' & _ & _).
  fold self' in Hm'.
  assert (Hpos : 0 <= _meter_rms self').
  { rewrite Hm'. pose proof (block_rms_nonneg (column0 indata)). nra. }
  split; [exact Hpos|].
  destruct (callback_fields indata status now self) as (_ & _ & Hs1 & _).
  fold self' in Hs1. cbv zeta in Hs1.
  unfold self' at 1. rewrite callback_unfold. cbv zeta.
  rewrite <- Hs1. unfold math_log10.
  destruct (Rlt_dec 0 (_meter_rms self' + 1e-12)) as [_|Hn]; [|exfalso; lra].
  set (s1' := set_state _ _).
  assert (Hdb : db (state s1') = 20 * log10 (_meter_rms self' + 1e-12))
    by reflexivity.
  destruct (write_ring_state (column0 indata) s1') as (H1 & _).
  destruct (_write_ring (column0 indata) s1') as [[[]|e] s2];
    cbn [snd] in *; cbn [state set_state db set_last_cb_ts];
    rewrite H1; exact Hdb.
Qed.

(** ** C7: the closed form of the level meter *)

(** C7. For every run of callbacks on a meter that starts at 0, with
    [r_0 .. r_k] the instantaneous RMS values of the blocks and the
    smoothing constant 0.20, the meter after block [k] is the sum over
    [i <= k] of [0.20 * 0.80^(k-i) * r_i], and the published dB value is
    [20 * log10 (m_k + 1e-12)]. Floats are real numbers here. *)
Theorem meter_closed_form (calls : list (ndarray2 * string * float))
    (self : MicWorker) :
  let rs := block_rms_values calls in
  let self' := callbacks calls self in
  _meter_rms self = 0 -> _meter_alpha self = 0.20 -> calls <> [] ->
  _meter_rms self' = ema_closed 0.20 rs
  /\ rms (state self') = ema_closed 0.20 rs
  /\ db (state self') = 20 * log10 (ema_closed 0.20 rs + 1e-12).
Proof.
  cbv zeta. intros Hm0 Ha.
  assert (Hinv : forall cs,
             _meter_rms (callbacks cs self)
             = ema_closed 0.20 (block_rms_values cs)
             /\ _meter_alpha (callbacks cs self) = 0.20
             /\ 0 <= _meter_rms (callbacks cs self)).
  { induction cs as [|[[indata status] now] cs IH] using rev_ind.
    - cbn. rewrite Hm0. unfold ema_closed. cbn. split; [lra|]. split; [exact Ha|lra].
    - destruct IH as (IH1 & IH2 & IH3).
      rewrite callbacks_snoc.
      destruct (callback_meter indata status now (callbacks cs self))
        as (H1 & _ & H3).
      cbv zeta in H1, H3.
      destruct (callback_db indata status now (callbacks cs self))
        as (H4 & _); [exact IH3|rewrite IH2; lra|].
      split; [|split; [congruence|exact H4]].
      rewrite H1, IH1, IH2. unfold block_rms_values.
      rewrite map_app. cbn [map fst]. now rewrite ema_closed_snoc. }
  intros Hne.
  destruct (exists_last Hne) as (cs & [[indata status] now] & ->).
  destruct (Hinv (cs ++ [(indata, status, now)])) as (H1 & _ & _).
  destruct (Hinv cs) as (_ & Hc2 & Hc3).
  rewrite callbacks_snoc in *.
  destruct (callback_meter indata status now (callbacks cs self))
    as (_ & H2 & _).
  destruct (callback_db indata status now (callbacks cs self))
    as (_ & H5); [exact Hc3|rewrite Hc2; lra|].
  cbv zeta in H2, H5.
  split; [exact H1|]. split; [congruence|]. rewrite H5, H1. reflexivity.
Qed.

Lemma meter_closed_form_witness :
  let calls := [(mkBlock [3; 4] [], EmptyString, 1); (mkBlock [0] [], EmptyString, 2)] in
  let self := demo_worker 1 in
  (_meter_rms self = 0 /\ _meter_alpha self = 0.20 /\ calls <> [])
  /\ _meter_rms (callbacks calls self)
     = ema_closed 0.20 (block_rms_values calls).
Proof.
  intros calls self.
  assert (H : _meter_rms self = 0 /\ _meter_alpha self = 0.20 /\ calls <> []).
  { repeat split. discriminate. }
  split; [exact H|].
  destruct H as (H1 & H2 & H3).
  exact (proj1 (meter_closed_form calls self H1 H2 H3)).
Defined.

(** *** When the callback raises *)

Lemma after_status_ring (status : string) (self : MicWorker) :
  _buf (after_status status self) = _buf self
  /\ _w (after_status status self) = _w self.
Proof.
  unfold after_status.
  destruct (truthy status); [destruct (contains _ _)|]; split; reflexivity.
Qed.

(** The callback has no handler: its outcome is that of the ring write,
    the one step of it that can raise on a worker in [callback_ready]. *)
Lemma callback_outcome (indata : ndarray2) (status : string) (now : float)
    (self : MicWorker) :
  callback_ready self ->
  fst (_callback indata status now self)
  = (if (_w self + size (column0 indata) <=? 2 * size (_buf self))%Z
     then Ok tt
     else Raise (ValueError "could not broadcast input array"))
  /\ callback_ready (snd (_callback indata status now self)).
Proof.
  intros (Hw & Hm & Ha).
  destruct (callback_db indata status now self Hm Ha) as (Hm' & _).
  destruct (callback_meter indata status now self) as (_ & _ & Ha').
  cbv zeta in Hm', Ha'.
  assert (Hring :
    fst (_callback indata status now self)
    = (if (_w self + size (column0 indata) <=? 2 * size (_buf self))%Z
       then Ok tt
       else Raise (ValueError "could not broadcast input array"))
    /\ size (_buf (snd (_callback indata status now self))) = size (_buf self)
    /\ (0 <= _w (snd (_callback indata status now self)) < size (_buf self))%Z).
  { rewrite callback_unfold. cbv zeta.
    set (s1 := after_meter (column0 indata) (after_status status self)).
    assert (Hs1 : 0 <= _meter_rms s1).
    { unfold s1, after_meter. cbn [_meter_rms set_state set_meter_rms].
      assert (E : _meter_rms (after_status status self) = _meter_rms self
                  /\ _meter_alpha (after_status status self) = _meter_alpha self).
      { unfold after_status.
        destruct (truthy status); [destruct (contains _ _)|]; split; reflexivity. }
      destruct E as [-> ->].
      pose proof (block_rms_nonneg (column0 indata)). nra. }
    unfold math_log10.
    destruct (Rlt_dec 0 (_meter_rms s1 + 1e-12)) as [_|Hn]; [|exfalso; lra].
    set (s1' := set_state _ s1).
    destruct (after_status_ring status self) as [Hb Hw0].
    assert (Hb' : _buf s1' = _buf self) by exact Hb.
    assert (Hw' : _w s1' = _w self) by exact Hw0.
    destruct (write_ring_outcome (column0 indata) s1') as (Ho & Hsz & Hrng).
    { rewrite Hb', Hw'. exact Hw. }
    rewrite Hb', Hw' in *.
    destruct (_write_ring (column0 indata) s1') as [[[]|e] s2];
      cbn [fst snd] in *; cbn [_buf _w set_state]; repeat split;
      solve [assumption | lia]. }
  destruct Hring as (Ho & Hsz & Hrng).
  split; [exact Ho|].
  unfold callback_ready. rewrite Hsz, Ha'. repeat split; solve [lia|lra].
Qed.

(** ** C8: exceptions in the callback *)

(** C8, as the code has it. The callback has no exception handler of its
    own. On a worker whose cursor is inside its buffer and whose meter is
    not negative, it returns normally for every status and every block
    with cursor + block length at most twice the capacity (so for every
    block no longer than the buffer), and leaves the worker in such a
    state; for a longer block the [ValueError] of the ring write's slice
    assignment escapes the callback. *)
Theorem callback_raises_only_on_long_block (indata : ndarray2)
    (status : string) (now : float) (self : MicWorker) :
  callback_ready self ->
  ((_w self + size (column0 indata) <= 2 * size (_buf self))%Z ->
   fst (_callback indata status now self) = Ok tt)
  /\ ((2 * size (_buf self) < _w self + size (column0 indata))%Z ->
      fst (_callback indata status now self)
      = Raise (ValueError "could not broadcast input array"))
  /\ callback_ready (snd (_callback indata status now self)).
Proof.
  intros Hr.
  destruct (callback_outcome indata status now self Hr) as (Ho & Hr').
  rewrite Ho. split; [|split; [|exact Hr']].
  - intros H. destruct (Z.leb_spec (_w self + size (column0 indata))
                          (2 * size (_buf self))); [reflexivity|lia].
  - intros H. destruct (Z.leb_spec (_w self + size (column0 indata))
                          (2 * size (_buf self))); [lia|reflexivity].
Qed.

(** [__init__] with a window of at least one sample leaves the worker
    ready for the callback, with a buffer of four windows. *)
Lemma init_ready (query : res (option float))
    (refused : Z -> option exn) (device_id : Z)
    (infer : list float -> string * float) (window_sec : float)
    (sr : option Z) (threshold : float) (consecutive_needed : Z)
    (self : MicWorker) :
  MicWorker_init query refused device_id infer window_sec sr threshold
    consecutive_needed = Ok self ->
  (0 < _need self)%Z ->
  callback_ready self
  /\ size (_buf self) = (4 * _need self)%Z /\ _w self = 0%Z.
Proof.
  unfold MicWorker_init, np_zeros.
  destruct query as [d|e]; [|discriminate].
  destruct (_ <? 0)%Z; [discriminate|].
  destruct (refused _); [discriminate|].
  intros H. injection H as <-. cbn [_need _buf _w]. intros Hn.
  unfold callback_ready. cbn [_w _buf _meter_rms _meter_alpha].
  unfold size. rewrite repeat_length. repeat split; solve [lia|lra].
Qed.

Lemma demo_worker_ready (need : Z) :
  (0 < need)%Z -> callback_ready (demo_worker need).
Proof.
  intros H. unfold callback_ready, demo_worker.
  cbn [_w _buf _meter_rms _meter_alpha].
  unfold size. rewrite repeat_length. repeat split; solve [lia|lra].
Qed.

Lemma callback_raises_only_on_long_block_witness :
  let self := demo_worker 1 in
  let indata := mkBlock [1; 2; 3; 4] [] in
  callback_ready self
  /\ (_w self + size (column0 indata) <= 2 * size (_buf self))%Z
  /\ fst (_callback indata EmptyString 1 self) = Ok tt.
Proof.
  intros self indata.
  assert (Hr : callback_ready self) by (apply demo_worker_ready; lia).
  assert (Hfit : (_w self + size (column0 indata) <= 2 * size (_buf self))%Z)
    by (cbv; discriminate).
  split; [exact Hr|]. split; [exact Hfit|].
  exact (proj1 (callback_raises_only_on_long_block indata EmptyString 1 self Hr) Hfit).
Defined.

Lemma callback_exception_escapes :
  let self := demo_worker 1 in
  let indata := mkBlock [1; 2; 3; 4; 5; 6; 7; 8; 9] [] in
  size (_buf self) = 4%Z
  /\ fst (_callback indata EmptyString 1 self)
     = Raise (ValueError "could not broadcast input array")
  /\ is_ok (fst (_callback indata EmptyString 1 self)) = false.
Proof.
  intros self indata.
  assert (Hr : callback_ready self) by (apply demo_worker_ready; lia).
  destruct (callback_outcome indata EmptyString 1 self Hr) as (Ho & _).
  rewrite Ho. repeat split.
Qed.

(** ** The supervisor *)

(** *** Float comparisons *)

Lemma Rgtb_true (a b : float) : a > b -> Rgtb a b = true.
Proof. intros H. unfold Rgtb. destruct (Rgt_dec a b); [reflexivity|contradiction]. Qed.

Lemma Rgeb_true (a b : float) : a >= b -> Rgeb a b = true.
Proof. intros H. unfold Rgeb. destruct (Rge_dec a b); [reflexivity|contradiction]. Qed.

Lemma Rnonzero_true (a : float) : a <> 0 -> Rnonzero a = true.
Proof. intros H. unfold Rnonzero. destruct (Req_dec_T a 0); [contradiction|reflexivity]. Qed.

Lemma Rnonzero_false : Rnonzero 0 = false.
Proof. unfold Rnonzero. destruct (Req_dec_T 0 0); [reflexivity|contradiction]. Qed.

(** *** What the supervisor's methods leave alone *)

Lemma read_latest_window_pure (self : MicWorker) :
  snd (_read_latest_window self) = self.
Proof.
  unfold _read_latest_window, bind, get, lift, ret.
  destruct (py_mod _ _) as [start|e]; [|reflexivity].
  destruct (start <? _w self)%Z; reflexivity.
Qed.

Lemma read_latest_window_returns (self : MicWorker) :
  (0 < size (_buf self))%Z -> is_ok (fst (_read_latest_window self)) = true.
Proof.
  intros H. unfold _read_latest_window, bind, get, lift, ret.
  rewrite py_mod_pos by exact H.
  destruct (_ <? _w self)%Z; reflexivity.
Qed.

(** The cadence block resets the classification fields to constants,
    whatever the window it has read holds. *)
Lemma cadence_block_resets (self : MicWorker) :
  cadence_block self
  = match fst (_read_latest_window self) with
    | Ok _ =>
        (Ok tt,
         set_state (set_triggered false)
           (set_state (set_conf 0)
              (set_state (set_label "traffic")
                 (set_state (set_consecutive_hits 0) self))))
    | Raise e => (Raise e, self)
    end.
Proof.
  unfold cadence_block. unfold bind at 1.
  pose proof (read_latest_window_pure self) as Hp.
  destruct (_read_latest_window self) as [[audio|e] s']; cbn [fst snd] in *;
    subst s'; reflexivity.
Qed.

Lemma open_stream_frame (env : Env) (self : MicWorker) :
  let self' := snd (_open_stream env self) in
  overflows (state self') = overflows (state self)
  /\ last_cb_ts (state self') = last_cb_ts (state self)
  /\ _stop self' = _stop self
  /\ _buf self' = _buf self
  /\ _w self' = _w self.
Proof.
  unfold _open_stream, bind, get, modify, lift.
  destruct (query_devices env) as [d|e]; cbn [snd]; [|repeat split].
  destruct (InputStream env); repeat split.
Qed.

(** No step of the supervisor touches the overflow counter, the
    heartbeat or the stop flag. *)
Lemma sup_step_frame (env : Env) (s : Sys) :
  let s' := fst (sup_step env s) in
  overflows (state (worker s')) = overflows (state (worker s))
  /\ last_cb_ts (state (worker s')) = last_cb_ts (state (worker s))
  /\ _stop (worker s') = _stop (worker s).
Proof.
  destruct s as [self p]. unfold sup_step. cbn [at_pc worker].
  destruct p as [|st lr|e st|st|].
  - unfold step_outer.
    destruct (open_stream_frame env self) as (H1 & H2 & H3 & _).
    cbv zeta in *.
    destruct (negb (_stop self)); [|repeat split].
    destruct (_open_stream env self) as [[st|e] self1]; cbn [snd] in *.
    + destruct (stream_start env); cbn; repeat split; assumption.
    + cbn. repeat split; assumption.
  - unfold step_inner.
    destruct (negb (_stop self)); [|repeat split].
    destruct (_ && _); [repeat split|].
    destruct (Rgeb _ _); [|repeat split].
    rewrite cadence_block_resets.
    destruct (fst (_read_latest_window self)); repeat split.
  - repeat split.
  - unfold step_finally. destruct (negb (_stop self)); repeat split.
  - repeat split.
Qed.

(** ** C10: the overflow counter never goes down *)

(** C10. Over any run of the worker (callbacks, stop requests and
    supervisor steps, among them stream restarts and cadence blocks), the
    overflow counter ends at its initial value plus the number of
    callbacks whose status was an overflow: it is never lowered or reset,
    and it moves only by 1, in the callback, on an overflow status. *)
Theorem overflows_only_count_up (inputs : list input) (s : Sys) :
  let s' := fst (run inputs s) in
  overflows (state (worker s'))
  = (overflows (state (worker s))
     + Z.of_nat (List.length (filter overflow_status inputs)))%Z
  /\ (overflows (state (worker s)) <= overflows (state (worker s')))%Z.
Proof.
  cbv zeta.
  assert (H : overflows (state (worker (fst (run inputs s))))
              = (overflows (state (worker s))
                 + Z.of_nat (List.length (filter overflow_status inputs)))%Z).
  { revert s. induction inputs as [|i inputs IH]; intros s.
    - cbn. lia.
    - cbn [run].
      destruct (sys_step i s) as [s1 evs1] eqn:E1.
      specialize (IH s1).
      destruct (run inputs s1) as [s2 evs2]. cbn [fst] in *.
      rewrite IH. cbn [filter].
      assert (Hstep : overflows (state (worker s1))
                      = (overflows (state (worker s))
                         + (if overflow_status i then 1 else 0))%Z).
      { destruct i as [indata status now| |env]; cbn [sys_step overflow_status] in *.
        - destruct (callback_fields indata status now (worker s))
            as (_ & Ho & _). cbv zeta in Ho.
          assert (worker s1 = snd (_callback indata status now (worker s))) as ->.
          { destruct (_callback indata status now (worker s)) as [[[]|e] self'];
              inversion E1; reflexivity. }
          rewrite Ho. unfold after_status.
          destruct (truthy status); [destruct (contains _ _)|]; cbn; lia.
        - inversion E1. cbn. lia.
        - destruct (sup_step_frame env s) as (Ho & _). cbv zeta in Ho.
          rewrite E1 in Ho. cbn [fst] in Ho. lia. }
      rewrite Hstep. destruct (overflow_status i); cbn [List.length]; lia. }
  split; [exact H|]. rewrite H. lia.
Qed.

(** *** The supervisor, step by step *)

Lemma run_app (a b : list input) (s : Sys) :
  run (a ++ b) s
  = (fst (run b (fst (run a s))),
     snd (run a s) ++ snd (run b (fst (run a s)))).
Proof.
  revert s. induction a as [|i a IH]; intros s.
  - cbn. now destruct (run b s).
  - cbn [app run]. destruct (sys_step i s) as [s1 evs1].
    rewrite IH. destruct (run a s1) as [s2 evs2]. cbn [fst snd].
    now rewrite app_assoc.
Qed.

(** The stop flag at the inner loop test. *)
Lemma stop_tick (env : Env) (st : stream) (lr : float) (self : MicWorker) :
  _stop self = true ->
  sup_step env (mkSys self (AtInner st lr))
  = (mkSys self (AtFinally (Some st)), []).
Proof.
  intros Hs. unfold sup_step, step_inner. cbn [at_pc worker].
  rewrite Hs. reflexivity.
Qed.

Lemma except_step (env : Env) (e : exn) (st : option stream)
    (self : MicWorker) :
  sup_step env (mkSys self (AtExcept e st))
  = (mkSys (set_state (set_last_error (stream_error e)) self) (AtFinally st),
     [Sleep 0.5]).
Proof. reflexivity. Qed.

Lemma finally_step (env : Env) (st : option stream) (self : MicWorker) :
  sup_step env (mkSys self (AtFinally st))
  = (mkSys self AtOuter,
     snd (teardown_body env st)
     ++ (if _stop self then [] else [Sleep 0.25])).
Proof.
  unfold sup_step, step_finally, except_pass. cbn [at_pc worker].
  destruct (_stop self); cbn [negb]; [now rewrite app_nil_r|reflexivity].
Qed.

Lemma outer_stop (env : Env) (self : MicWorker) :
  _stop self = true ->
  sup_step env (mkSys self AtOuter) = (mkSys self Returned, []).
Proof.
  intros Hs. unfold sup_step, step_outer. cbn [at_pc worker].
  rewrite Hs. reflexivity.
Qed.

(** The stream is opened and started. *)
Lemma outer_open (env : Env) (self : MicWorker) (d : option float)
    (st : stream) :
  _stop self = false ->
  query_devices env = Ok d -> InputStream env = Ok st ->
  stream_start env = Ok tt ->
  exists self',
    sup_step env (mkSys self AtOuter)
    = (mkSys self' (AtInner st 0), [Open st; Start st])
    /\ _stop self' = false
    /\ last_cb_ts (state self') = last_cb_ts (state self)
    /\ last_error (state self') = EmptyString.
Proof.
  intros Hs Hq Hi Hst. unfold sup_step, step_outer. cbn [at_pc worker].
  rewrite Hs. cbn [negb].
  unfold _open_stream, bind, get, modify, lift. rewrite Hq, Hi, Hst.
  eexists. split; [reflexivity|]. cbn. repeat split; assumption.
Qed.

(** The teardown calls nothing but [stop] and [close]. *)
Lemma teardown_no_sleep (env : Env) (st : option stream) :
  slept (snd (teardown_body env st)) = 0
  /\ opens (snd (teardown_body env st)) = 0%nat.
Proof.
  unfold teardown_body. destruct st as [h|]; [|split; reflexivity].
  destruct (stream_stop env); split; cbn; solve [reflexivity|lra].
Qed.

Lemma slept_app (a b : list event) : slept (a ++ b) = slept a + slept b.
Proof.
  induction a as [|e a IH]; [cbn [app]; unfold slept at 2; cbn [fold_right]; lra|].
  cbn [app]. unfold slept in *. cbn [fold_right].
  destruct e; rewrite ?IH; lra.
Qed.

(** A step that enters the handler has not slept, and could only be
    taken with the stop flag down. *)
Lemma enter_except (env : Env) (s : Sys) (e : exn) (st : option stream) :
  at_pc (fst (sup_step env s)) = AtExcept e st ->
  slept (snd (sup_step env s)) = 0 /\ _stop (worker s) = false.
Proof.
  destruct s as [self p]. unfold sup_step. cbn [at_pc worker].
  destruct p as [|h lr|e0 h|h|]; cbn [fst snd].
  - unfold step_outer. destruct (_stop self); cbn [negb]; [discriminate|].
    destruct (_open_stream env self) as [[h|e1] self1].
    + destruct (stream_start env); cbn; [discriminate|]. intros _. split; [lra|reflexivity].
    + cbn. intros _. split; [lra|reflexivity].
  - unfold step_inner. destruct (_stop self); cbn [negb]; [discriminate|].
    destruct (_ && _); [discriminate|].
    destruct (Rgeb _ _); [|discriminate].
    destruct (cadence_block self) as [[[]|e1] self1]; cbn; [discriminate|].
    intros _. split; [lra|reflexivity].
  - discriminate.
  - unfold step_finally. destruct (negb (_stop self)); discriminate.
  - discriminate.
Qed.

(** *** A stalled heartbeat *)

Section Stalled.

Variables (self : MicWorker) (st : stream) (lr : float) (env1 : Env).

Hypothesis not_stopped : _stop self = false.
Hypothesis heartbeat_seen : last_cb_ts (state self) <> 0.
Hypothesis heartbeat_late : time_time env1 - last_cb_ts (state self) > 1.5.

(** The stall check fires: the message is recorded and the inner loop is
    left for the [finally] clause. *)
Lemma stall_tick :
  sup_step env1 (mkSys self (AtInner st lr))
  = (mkSys (set_state (set_last_error stall_message) self)
       (AtFinally (Some st)), []).
Proof.
  unfold sup_step, step_inner. cbn [at_pc worker].
  rewrite not_stopped, Rnonzero_true, Rgtb_true by assumption. reflexivity.
Qed.

(** After a stall the supervisor tears the stream down, sleeps 0.25 s,
    opens a new stream and is back in the inner loop with the heartbeat
    it had: the stall check holds again at any later time. *)
Lemma restart_cycle (env2 env3 : Env) (st' : stream) (d : option float) :
  stream_stop env2 = Ok tt ->
  query_devices env3 = Ok d -> InputStream env3 = Ok st' ->
  stream_start env3 = Ok tt ->
  exists self',
    run [Supervisor env1; Supervisor env2; Supervisor env3]
      (mkSys self (AtInner st lr))
    = (mkSys self' (AtInner st' 0),
       [Stop st; Close st; Sleep 0.25; Open st'; Start st'])
    /\ _stop self' = false
    /\ last_cb_ts (state self') = last_cb_ts (state self).
Proof.
  intros Hstop Hq Hi Hst.
  cbn [run sys_step].
  rewrite stall_tick, finally_step.
  set (self1 := set_state (set_last_error stall_message) self).
  assert (Hs1 : _stop self1 = false) by exact not_stopped.
  destruct (outer_open env3 self1 d st' Hs1 Hq Hi Hst)
    as (self' & E & Hs' & Hts' & _).
  rewrite E. exists self'. split; [|split; assumption].
  unfold teardown_body. rewrite Hstop, Hs1. reflexivity.
Qed.

End Stalled.

(** *** The classification fields over a run *)

Lemma callback_classification (indata : ndarray2) (status : string)
    (now : float) (self : MicWorker) :
  let self' := snd (_callback indata status now self) in
  label (state self') = label (state self)
  /\ conf (state self') = conf (state self)
  /\ consecutive_hits (state self') = consecutive_hits (state self)
  /\ triggered (state self') = triggered (state self).
Proof.
  cbv zeta. rewrite callback_unfold. cbv zeta.
  set (s1 := after_meter (column0 indata) (after_status status self)).
  assert (H1 : label (state s1) = label (state self)
               /\ conf (state s1) = conf (state self)
               /\ consecutive_hits (state s1) = consecutive_hits (state self)
               /\ triggered (state s1) = triggered (state self)).
  { unfold s1, after_meter, after_status.
    destruct (truthy status); [destruct (contains _ _)|]; repeat split. }
  destruct (math_log10 _) as [d|e]; cbn [snd]; [|exact H1].
  set (s1' := set_state (set_db (20 * d)) s1).
  destruct (write_ring_state (column0 indata) s1') as (Hst & _).
  destruct (_write_ring (column0 indata) s1') as [[[]|e] s2];
    cbn [snd] in *;
    cbn [state set_state label conf consecutive_hits triggered set_last_cb_ts];
    rewrite Hst; exact H1.
Qed.

(** No step of the system moves the classification fields away from
    their defaults: the cadence block writes the defaults back, and
    nothing else writes them. *)
Lemma sys_step_classification (i : input) (s : Sys) :
  classification_default (worker s) ->
  classification_default (worker (fst (sys_step i s))).
Proof.
  unfold classification_default. intros H.
  destruct i as [indata status now| |env]; cbn [sys_step].
  - destruct (callback_classification indata status now (worker s))
      as (H1 & H2 & H3 & H4). cbv zeta in *.
    destruct (_callback indata status now (worker s)) as [[[]|e] self'];
      cbn [fst snd worker] in *; rewrite H1, H2, H3, H4; exact H.
  - exact H.
  - destruct s as [self p]. unfold sup_step. cbn [at_pc worker] in *.
    destruct p as [|st lr|e st|st|].
    + unfold step_outer. destruct (negb (_stop self)); [|exact H].
      unfold _open_stream, bind, get, modify, lift.
      destruct (query_devices env) as [d|e]; [|exact H].
      destruct (InputStream env) as [st|e]; [|exact H].
      destruct (stream_start env); exact H.
    + unfold step_inner. destruct (negb (_stop self)); [|exact H].
      destruct (_ && _); [exact H|].
      destruct (Rgeb _ _); [|exact H].
      rewrite cadence_block_resets.
      destruct (fst (_read_latest_window self)); [|exact H].
      cbn. repeat split.
    + exact H.
    + unfold step_finally. destruct (negb (_stop self)); exact H.
    + exact H.
Qed.

(** From construction on, whatever the classifier, the threshold and the
    number of hits needed, [triggered] is false at every point of every
    run, and the other classification fields keep their defaults. *)
Lemma triggered_never_set (inputs : list input) (p : pc)
    (query : res (option float))
    (refused : Z -> option exn) (device_id : Z)
    (infer : list float -> string * float) (window_sec : float)
    (sr : option Z) (threshold : float) (consecutive_needed : Z)
    (self : MicWorker) :
  MicWorker_init query refused device_id infer window_sec sr threshold
    consecutive_needed = Ok self ->
  classification_default (worker (fst (run inputs (mkSys self p)))).
Proof.
  intros Hinit.
  assert (H0 : classification_default (worker (mkSys self p))).
  { unfold MicWorker_init, np_zeros in Hinit.
    destruct query as [d|e]; [|discriminate Hinit].
    destruct (_ <? 0)%Z; [discriminate Hinit|].
    destruct (refused _); [discriminate Hinit|].
    injection Hinit as <-. repeat split. }
  generalize dependent (mkSys self p). clear Hinit p self.
  induction inputs as [|i inputs IH]; intros s H0; [exact H0|].
  cbn [run]. pose proof (sys_step_classification i s H0) as H1.
  destruct (sys_step i s) as [s1 evs1]. specialize (IH s1 H1).
  destruct (run inputs s1) as [s2 evs2]. exact IH.
Qed.

(** *** Restarts without end *)

Lemma opens_app (a b : list event) : opens (a ++ b) = (opens a + opens b)%nat.
Proof. unfold opens. now rewrite filter_app, length_app. Qed.

Lemma no_heartbeat_app (a b : list input) :
  no_heartbeat a -> no_heartbeat b -> no_heartbeat (a ++ b).
Proof. unfold no_heartbeat. intros Ha Hb. apply Forall_app. now split. Qed.

(** Once the heartbeat is stale, any number of restarts follows without
    a single callback in between. *)
Lemma stall_restarts_forever (k : nat) :
  forall (self : MicWorker) (st : stream) (lr : float),
    _stop self = false ->
    last_cb_ts (state self) <> 0 ->
    exists inputs,
      no_heartbeat inputs
      /\ opens (snd (run inputs (mkSys self (AtInner st lr)))) = k.
Proof.
  induction k as [|k IH]; intros self st lr Hs Hts.
  - exists []. split; [constructor|reflexivity].
  - set (late := calm (last_cb_ts (state self) + 2) (S st)).
    destruct (restart_cycle self st lr late Hs Hts)
      with (env2 := late) (env3 := late) (st' := S st) (d := @None float)
      as (self1 & E & Hs1 & Hts1); try reflexivity.
    { cbn. lra. }
    assert (Hts1' : last_cb_ts (state self1) <> 0) by congruence.
    destruct (IH self1 (S st) 0 Hs1 Hts1') as (inputs & Hn & Ho).
    exists ([Supervisor late; Supervisor late; Supervisor late] ++ inputs).
    rewrite run_app, E. cbn [fst snd]. split.
    + apply no_heartbeat_app; [repeat constructor|exact Hn].
    + rewrite opens_app, Ho. reflexivity.
Qed.

(** A cadence pass of the inner loop: no stall, the window is due. *)
Lemma cadence_tick (env : Env) (st : stream) (lr : float) (self : MicWorker) :
  _stop self = false ->
  last_cb_ts (state self) = 0 ->
  time_time env - lr >= window_sec self ->
  (0 < size (_buf self))%Z ->
  sup_step env (mkSys self (AtInner st lr))
  = (mkSys (set_state (set_triggered false)
              (set_state (set_conf 0)
                 (set_state (set_label "traffic")
                    (set_state (set_consecutive_hits 0) self))))
       (AtInner st (time_time env)), [Sleep 0.02]).
Proof.
  intros Hs Hts Hdue HL. unfold sup_step, step_inner. cbn [at_pc worker].
  rewrite Hs, Hts, Rnonzero_false, Rgeb_true by assumption. cbn [negb andb].
  rewrite cadence_block_resets.
  pose proof (read_latest_window_returns self HL) as Hok.
  destruct (fst (_read_latest_window self)); [reflexivity|discriminate Hok].
Qed.

(** ** C2: the hysteresis of the cadence step *)

(** C2, on the code. A worker with threshold 0.85, two hits needed and a
    classifier that answers ("siren", 0.9) on every window takes three
    cadence passes: the classifier is not consulted, and after each pass
    the label is "traffic", the confidence 0, the hit count 0 and
    [triggered] false, so the triggered sequence is false, false, false. *)
Theorem cadence_never_triggers :
  let self := demo_worker 1 in
  let s0 := mkSys self (AtInner 7%nat 0) in
  let s1 := fst (sup_step (calm 10 7%nat) s0) in
  let s2 := fst (sup_step (calm 20 7%nat) s1) in
  let s3 := fst (sup_step (calm 30 7%nat) s2) in
  threshold self = 0.85 /\ consecutive_needed self = 2%Z
  /\ (forall audio, infer self audio = ("siren", 0.9))
  /\ at_pc s3 = AtInner 7%nat 30
  /\ map (fun s => triggered (state (worker s))) [s1; s2; s3]
     = [false; false; false]
  /\ map (fun s => consecutive_hits (state (worker s))) [s1; s2; s3]
     = [0%Z; 0%Z; 0%Z]
  /\ map (fun s => label (state (worker s))) [s1; s2; s3]
     = ["traffic"; "traffic"; "traffic"]
  /\ map (fun s => conf (state (worker s))) [s1; s2; s3] = [0; 0; 0].
Proof.
  cbv zeta.
  rewrite (cadence_tick (calm 10 7%nat) 7%nat 0 (demo_worker 1));
    [|reflexivity|reflexivity|cbn; lra|cbv; reflexivity].
  cbn [fst].
  rewrite cadence_tick;
    [|reflexivity|reflexivity|cbn; lra|cbv; reflexivity].
  cbn [fst].
  rewrite cadence_tick;
    [|reflexivity|reflexivity|cbn; lra|cbv; reflexivity].
  cbn [fst]. repeat split.
Qed.

(** ** C3: the stall check *)

(** C3, on the code. One heartbeat at time 1, then none: the check at
    time 3 records the stall and leaves the inner loop, the stream is
    closed and reopened, and the first check of the new stream, at time
    3.25, finds the same heartbeat and restarts again. The run has no
    callback in it and opens two streams. *)
Theorem stall_restarts_twice :
  let s0 := mkSys running_worker (AtInner 7%nat 0) in
  let inputs :=
    [Supervisor (calm 3 7%nat); Supervisor (calm 3 7%nat);
     Supervisor (calm 3.25 8%nat);
     Supervisor (calm 3.25 8%nat); Supervisor (calm 3.25 8%nat);
     Supervisor (calm 3.5 9%nat)] in
  no_heartbeat inputs
  /\ last_cb_ts (state (worker s0)) = 1
  /\ last_error (state (worker (fst (sup_step (calm 3 7%nat) s0))))
     = stall_message
  /\ snd (run inputs s0)
     = [Stop 7%nat; Close 7%nat; Sleep 0.25; Open 8%nat; Start 8%nat;
        Stop 8%nat; Close 8%nat; Sleep 0.25; Open 9%nat; Start 9%nat]
  /\ opens (snd (run inputs s0)) = 2%nat
  /\ at_pc (fst (run inputs s0)) = AtInner 9%nat 0
  /\ last_cb_ts (state (worker (fst (run inputs s0)))) = 1.
Proof.
  cbv zeta.
  split; [repeat constructor|].
  split; [reflexivity|].
  split.
  { rewrite stall_tick; [reflexivity|reflexivity|cbn; lra|cbn; lra]. }
  change [Supervisor (calm 3 7%nat); Supervisor (calm 3 7%nat);
          Supervisor (calm 3.25 8%nat); Supervisor (calm 3.25 8%nat);
          Supervisor (calm 3.25 8%nat); Supervisor (calm 3.5 9%nat)]
    with ([Supervisor (calm 3 7%nat); Supervisor (calm 3 7%nat);
           Supervisor (calm 3.25 8%nat)]
          ++ [Supervisor (calm 3.25 8%nat); Supervisor (calm 3.25 8%nat);
              Supervisor (calm 3.5 9%nat)]).
  rewrite run_app.
  destruct (restart_cycle running_worker 7%nat 0 (calm 3 7%nat))
    with (env2 := calm 3 7%nat) (env3 := calm 3.25 8%nat) (st' := 8%nat)
         (d := @None float)
    as (self1 & E1 & Hs1 & Hts1); try reflexivity; try (cbn; lra).
  rewrite E1. cbn [fst snd].
  assert (Hts : last_cb_ts (state self1) = 1) by exact Hts1.
  destruct (restart_cycle self1 8%nat 0 (calm 3.25 8%nat))
    with (env2 := calm 3.25 8%nat) (env3 := calm 3.5 9%nat) (st' := 9%nat)
         (d := @None float)
    as (self2 & E2 & Hs2 & Hts2); try reflexivity; try assumption;
    try (rewrite Hts; cbn; lra).
  rewrite E2. cbn [fst snd at_pc worker].
  repeat split. congruence.
Qed.

(** *** From the handler to the outer loop test *)

Lemma except_to_outer (env1 env2 : Env) (e : exn) (st : option stream)
    (self : MicWorker) :
  let r := run [Supervisor env1; Supervisor env2]
             (mkSys self (AtExcept e st)) in
  at_pc (fst r) = AtOuter
  /\ _stop (worker (fst r)) = _stop self
  /\ slept (snd r) = if _stop self then 0.5 else 0.75.
Proof.
  cbn [run sys_step]. rewrite except_step, finally_step.
  cbn [fst snd at_pc worker]. split; [reflexivity|]. split; [reflexivity|].
  rewrite app_nil_r. cbn [app]. unfold slept at 1. cbn [fold_right].
  fold (slept (snd (teardown_body env2 st)
                ++ (if _stop (set_state (set_last_error (stream_error e)) self)
                    then [] else [Sleep 0.25]))).
  rewrite slept_app. destruct (teardown_no_sleep env2 st) as [-> _].
  cbn [_stop set_state]. destruct (_stop self); cbn; lra.
Qed.

(** ** C4: the delay before the stream is reopened *)

(** C4, as the code has it. Before the outer loop test that reopens the
    stream the supervisor sleeps, in total, exactly 0.25 s after a stall
    and exactly 0.75 s after a runtime error: 0.5 s in the exception
    handler, then the 0.25 s of the [finally] clause. With the stop flag
    set the [finally] clause does not sleep: a clean stop-loop exit
    reaches the stopped state with no delay, and so does a stall followed
    by a stop request; a runtime error followed by a stop request reaches
    it after the handler's 0.5 s. *)
Theorem backoff_delays :
  (forall env0 env1 st lr self,
      _stop self = false ->
      last_cb_ts (state self) <> 0 ->
      time_time env0 - last_cb_ts (state self) > 1.5 ->
      let r := run [Supervisor env0; Supervisor env1]
                 (mkSys self (AtInner st lr)) in
      at_pc (fst r) = AtOuter /\ _stop (worker (fst r)) = false
      /\ slept (snd r) = 0.25)
  /\ (forall env0 env1 env2 s e st,
         at_pc (fst (sup_step env0 s)) = AtExcept e st ->
         let r := run [Supervisor env0; Supervisor env1; Supervisor env2] s in
         at_pc (fst r) = AtOuter /\ _stop (worker (fst r)) = false
         /\ slept (snd r) = 0.75)
  /\ (forall env0 env1 env2 st lr self,
         _stop self = true ->
         let r := run [Supervisor env0; Supervisor env1; Supervisor env2]
                    (mkSys self (AtInner st lr)) in
         at_pc (fst r) = Returned /\ slept (snd r) = 0)
  /\ (forall env0 env1 env2 st lr self,
         _stop self = false ->
         last_cb_ts (state self) <> 0 ->
         time_time env0 - last_cb_ts (state self) > 1.5 ->
         let r := run [Supervisor env0; StopRequest; Supervisor env1;
                       Supervisor env2] (mkSys self (AtInner st lr)) in
         at_pc (fst r) = Returned /\ slept (snd r) = 0)
  /\ (forall env0 env1 env2 env3 s e st,
         at_pc (fst (sup_step env0 s)) = AtExcept e st ->
         let r := run [Supervisor env0; StopRequest; Supervisor env1;
                       Supervisor env2; Supervisor env3] s in
         at_pc (fst r) = Returned /\ slept (snd r) = 0.5).
Proof.
  split; [|split; [|split; [|split]]].
  - intros env0 env1 st lr self Hs Hts Hlate. cbn [run sys_step].
    rewrite stall_tick by assumption. rewrite finally_step.
    cbn [fst snd at_pc worker _stop set_state]. rewrite Hs.
    split; [reflexivity|]. split; [reflexivity|].
    rewrite app_nil_r. cbn [app]. rewrite slept_app.
    destruct (teardown_no_sleep env1 (Some st)) as [-> _]. cbn. lra.
  - intros env0 env1 env2 s e st Hpc.
    destruct (enter_except env0 s e st Hpc) as [Hsl Hs].
    destruct (sup_step_frame env0 s) as (_ & _ & Hs0). cbv zeta in Hs0.
    change [Supervisor env0; Supervisor env1; Supervisor env2]
      with ([Supervisor env0] ++ [Supervisor env1; Supervisor env2]).
    cbv zeta. rewrite run_app.
    assert (E0 : run [Supervisor env0] s
                 = (fst (sup_step env0 s), snd (sup_step env0 s))).
    { cbn [run sys_step]. destruct (sup_step env0 s). cbn.
      now rewrite app_nil_r. }
    rewrite E0. cbn [fst snd].
    destruct (fst (sup_step env0 s)) as [self1 p1] eqn:E1.
    cbn [at_pc worker] in Hpc, Hs0. subst p1.
    destruct (except_to_outer env1 env2 e st self1) as (H1 & H2 & H3).
    cbv zeta in H1, H2, H3.
    split; [exact H1|]. split; [congruence|].
    rewrite slept_app, Hsl, H3, Hs0, Hs. lra.
  - intros env0 env1 env2 st lr self Hs. cbn [run sys_step].
    rewrite stop_tick by assumption. rewrite finally_step.
    rewrite outer_stop by assumption.
    cbn [fst snd at_pc]. split; [reflexivity|].
    rewrite Hs, !app_nil_r. cbn [app].
    now destruct (teardown_no_sleep env1 (Some st)) as [-> _].
  - intros env0 env1 env2 st lr self Hs Hts Hlate. cbn [run sys_step].
    rewrite stall_tick by assumption. cbn [fst snd worker at_pc stop modify].
    rewrite finally_step. rewrite outer_stop by reflexivity.
    cbn [fst snd at_pc]. split; [reflexivity|].
    cbn [_stop set_stop]. rewrite !app_nil_r. cbn [app].
    now destruct (teardown_no_sleep env1 (Some st)) as [-> _].
  - intros env0 env1 env2 env3 s e st Hpc.
    destruct (enter_except env0 s e st Hpc) as [Hsl Hs].
    cbv zeta. cbn [run sys_step].
    destruct (sup_step env0 s) as [[self1 p1] evs0].
    cbn [fst snd at_pc] in Hpc, Hsl. subst p1.
    cbn [worker at_pc stop modify snd].
    rewrite except_step, finally_step.
    rewrite outer_stop by reflexivity.
    cbn [fst snd at_pc]. split; [reflexivity|].
    cbn [_stop set_stop set_state]. rewrite !app_nil_r. cbn [app].
    rewrite slept_app, Hsl. unfold slept at 1. cbn [fold_right].
    fold (slept (snd (teardown_body env2 st))).
    destruct (teardown_no_sleep env2 st) as [-> _]. lra.
Qed.

Lemma backoff_delays_witness :
  let s0 := mkSys running_worker (AtInner 7%nat 0) in
  let r := run [Supervisor (calm 3 7%nat); Supervisor (calm 3 7%nat)] s0 in
  (_stop running_worker = false
   /\ last_cb_ts (state running_worker) <> 0
   /\ time_time (calm 3 7%nat) - last_cb_ts (state running_worker) > 1.5)
  /\ at_pc (fst r) = AtOuter /\ slept (snd r) = 0.25.
Proof.
  intros s0 r.
  assert (H : _stop running_worker = false
              /\ last_cb_ts (state running_worker) <> 0
              /\ time_time (calm 3 7%nat)
                 - last_cb_ts (state running_worker) > 1.5).
  { split; [reflexivity|]. split; cbn; lra. }
  split; [exact H|].
  destruct H as (H1 & H2 & H3).
  destruct (proj1 backoff_delays (calm 3 7%nat) (calm 3 7%nat) 7%nat 0
              running_worker H1 H2 H3) as (Ha & _ & Hb).
  split; [exact Ha|exact Hb].
Defined.

(** C4 as stated fails: after a runtime error the supervisor has slept
    0.75 s, not 0.5 s, when it reopens; and with the stop flag set after
    the error it still sleeps the handler's 0.5 s before it stops. *)
Lemma backoff_after_error_counterexample :
  let s0 := mkSys (demo_worker 1) AtOuter in
  let r := run [Supervisor (no_device 0); Supervisor (calm 0 7%nat);
                Supervisor (calm 1 7%nat)] s0 in
  let r' := run [Supervisor (no_device 0); StopRequest;
                 Supervisor (calm 0 7%nat); Supervisor (calm 1 7%nat);
                 Supervisor (calm 1 7%nat)] s0 in
  at_pc (fst (sup_step (no_device 0) s0))
  = AtExcept (PortAudioError "Error querying device") None
  /\ at_pc (fst r) = AtOuter
  /\ _stop (worker (fst r)) = false
  /\ snd r = [Sleep 0.5; Sleep 0.25]
  /\ slept (snd r) <> 0.5
  /\ at_pc (fst r') = Returned
  /\ snd r' = [Sleep 0.5]
  /\ slept (snd r') <> 0.
Proof.
  cbv zeta. repeat split; try reflexivity; cbn; lra.
Qed.

(** ** C9: the teardown *)

(** What the teardown does on every path. A stream the supervisor has
    opened stays with it at every program point until the [finally]
    clause, which every exit path of the iteration goes through. There
    [stop()] is called on it, and [close()] exactly when [stop()]
    returned. An exception of either call is swallowed: the supervisor
    goes on to the outer loop test with the worker as it was. *)
Lemma teardown_on_every_exit :
  (forall env s st,
      In (Open st) (snd (sup_step env s)) ->
      held (at_pc (fst (sup_step env s))) = Some st)
  /\ (forall env s st,
         held (at_pc s) = Some st ->
         held (at_pc (fst (sup_step env s))) = Some st
         \/ at_pc s = AtFinally (Some st))
  /\ (forall env self st,
         let r := sup_step env (mkSys self (AtFinally (Some st))) in
         fst r = mkSys self AtOuter
         /\ In (Stop st) (snd r)
         /\ (is_ok (stream_stop env) = true -> In (Close st) (snd r))
         /\ (is_ok (stream_stop env) = false -> ~ In (Close st) (snd r))).
Proof.
  split; [|split].
  - intros env [self p] st. unfold sup_step. cbn [at_pc worker].
    destruct p as [|h lr|e h|h|]; cbn [fst snd].
    + unfold step_outer. destruct (negb (_stop self)); [|intros []].
      destruct (_open_stream env self) as [[h|e] self1]; [|intros []].
      destruct (stream_start env); cbn;
        intros [H|[H|[]]]; inversion H; reflexivity.
    + unfold step_inner. destruct (negb (_stop self)); [|intros []].
      destruct (_ && _); [intros []|].
      destruct (Rgeb _ _).
      * destruct (cadence_block self) as [[[]|e] self1]; cbn;
          [intros [H|[]]; discriminate H|intros []].
      * cbn. intros [H|[]]; discriminate H.
    + cbn. intros [H|[]]; discriminate H.
    + unfold step_finally, except_pass, teardown_body.
      destruct h as [h|]; [destruct (stream_stop env)|];
        destruct (negb (_stop self)); cbn; intuition discriminate.
    + intros [].
  - intros env [self p] st. unfold sup_step. cbn [at_pc worker].
    destruct p as [|h lr|e h|h|]; cbn [held fst]; intros Hh;
      try discriminate Hh.
    + left. unfold step_inner. destruct (negb (_stop self)); [|exact Hh].
      destruct (_ && _); [exact Hh|].
      destruct (Rgeb _ _); [|exact Hh].
      destruct (cadence_block self) as [[[]|e] self1]; exact Hh.
    + left. exact Hh.
    + right. now rewrite Hh.
  - intros env self st. cbv zeta. rewrite finally_step. cbn [fst snd].
    split; [reflexivity|]. unfold teardown_body.
    destruct (stream_stop env) as [[]|e]; cbn [is_ok snd app].
    + split; [now left|]. split; [intros _; right; now left|discriminate].
    + split; [now left|]. split; [discriminate|]. intros _ [H|H].
      * discriminate H.
      * destruct (_stop self); cbn in H; intuition discriminate.
Qed.

Example teardown_closes_after_stop :
  let r := sup_step (calm 3 7%nat)
             (mkSys running_worker (AtFinally (Some 7%nat))) in
  is_ok (stream_stop (calm 3 7%nat)) = true
  /\ In (Stop 7%nat) (snd r) /\ In (Close 7%nat) (snd r).
Proof.
  intros r.
  assert (H : is_ok (stream_stop (calm 3 7%nat)) = true) by reflexivity.
  split; [exact H|].
  destruct (proj2 (proj2 teardown_on_every_exit) (calm 3 7%nat)
              running_worker 7%nat) as (_ & Hs & Hc & _).
  split; [exact Hs|exact (Hc H)].
Qed.

(** C9, on the code. A running stream, handle 7, whose heartbeat has
    stalled and whose [stop()] raises: the [finally] clause calls
    [stop()], the exception skips [close()] and is swallowed, and after
    0.25 s the supervisor opens stream 8 with stream 7 never closed.
    Where [stop()] returns, the same run closes stream 7 before it opens
    stream 8. *)
Theorem teardown_skips_close :
  let s0 := mkSys running_worker (AtInner 7%nat 0) in
  let failing :=
    [Supervisor (stop_fails 3); Supervisor (stop_fails 3);
     Supervisor (calm 3.25 8%nat)] in
  let sibling :=
    [Supervisor (calm 3 7%nat); Supervisor (calm 3 7%nat);
     Supervisor (calm 3.25 8%nat)] in
  held (at_pc s0) = Some 7%nat
  /\ snd (run failing s0)
     = [Stop 7%nat; Sleep 0.25; Open 8%nat; Start 8%nat]
  /\ ~ In (Close 7%nat) (snd (run failing s0))
  /\ at_pc (fst (run failing s0)) = AtInner 8%nat 0
  /\ snd (run sibling s0)
     = [Stop 7%nat; Close 7%nat; Sleep 0.25; Open 8%nat; Start 8%nat].
Proof.
  cbv zeta.
  assert (Hstall : forall env, time_time env = 3 ->
            sup_step env (mkSys running_worker (AtInner 7%nat 0))
            = (mkSys (set_state (set_last_error stall_message)
                        running_worker) (AtFinally (Some 7%nat)), [])).
  { intros env Ht. apply stall_tick; [reflexivity|cbn; lra|].
    rewrite Ht. cbn. lra. }
  assert (Hf : snd (run [Supervisor (stop_fails 3); Supervisor (stop_fails 3);
                         Supervisor (calm 3.25 8%nat)]
                      (mkSys running_worker (AtInner 7%nat 0)))
               = [Stop 7%nat; Sleep 0.25; Open 8%nat; Start 8%nat]
               /\ at_pc (fst (run [Supervisor (stop_fails 3);
                                   Supervisor (stop_fails 3);
                                   Supervisor (calm 3.25 8%nat)]
                                (mkSys running_worker (AtInner 7%nat 0))))
                  = AtInner 8%nat 0).
  { cbn [run sys_step]. rewrite (Hstall (stop_fails 3) eq_refl).
    rewrite finally_step. cbn [fst snd]. split; reflexivity. }
  destruct Hf as [Hev Hpc].
  split; [reflexivity|]. split; [exact Hev|].
  split.
  { rewrite Hev. intros [H|[H|[H|[H|[]]]]]; discriminate H. }
  split; [exact Hpc|].
  cbn [run sys_step]. rewrite (Hstall (calm 3 7%nat) eq_refl).
  rewrite finally_step. reflexivity.
Qed.

Local Open Scope Z_scope.

(** ** The ring as a window on the stream of samples *)

Section LastN.
Context {A : Type}.
Implicit Types l a b : list A.

Lemma lastn_all l n : size l <= n -> lastn n l = l.
Proof.
  intros H. unfold lastn. replace (Z.to_nat (size l - n)) with 0%nat by lia.
  reflexivity.
Qed.

Lemma size_lastn l n : 0 <= n <= size l -> size (lastn n l) = n.
Proof.
  intros H. unfold lastn. rewrite size_skipn by lia. lia.
Qed.

Lemma lastn_app a b n : 0 <= n -> size b <= n ->
  lastn n (a ++ b) = lastn (n - size b) a ++ b.
Proof.
  intros Hn Hb. unfold lastn. rewrite size_app, skipn_app.
  replace (Z.to_nat (size a + size b - n) - List.length a)%nat with 0%nat
    by (unfold size in *; lia).
  cbn [skipn]. f_equal. f_equal. lia.
Qed.

Lemma lastn_app_short a b n : 0 <= n <= size b ->
  lastn n (a ++ b) = lastn n b.
Proof.
  intros H. unfold lastn. rewrite size_app, skipn_app.
  rewrite skipn_all2 by (unfold size in *; lia). cbn [app].
  f_equal. unfold size in *. lia.
Qed.

Lemma lastn_lastn l n m : 0 <= n <= m -> lastn n (lastn m l) = lastn n l.
Proof.
  intros H. pose proof (size_nonneg l) as Hl.
  destruct (Z_le_gt_dec (size l) m) as [Hm|Hm].
  - now rewrite (lastn_all l m).
  - unfold lastn at 1. rewrite size_lastn by lia.
    unfold lastn. rewrite skipn_skipn. f_equal. lia.
Qed.
Lemma Forall_firstn_skipn (P : A -> Prop) l (n : nat) :
  Forall P l -> Forall P (firstn n l) /\ Forall P (skipn n l).
Proof.
  intros H. rewrite <- (firstn_skipn n l) in H. now apply Forall_app in H.
Qed.
End LastN.

Lemma ring_contents_eq (self : MicWorker) :
  0 <= _w self <= size (_buf self) ->
  ring_contents self
  = skipn (Z.to_nat (_w self)) (_buf self)
    ++ firstn (Z.to_nat (_w self)) (_buf self).
Proof.
  intros H. unfold ring_contents. now rewrite slice_from, slice_to by lia.
Qed.

Lemma size_ring_contents (self : MicWorker) :
  0 <= _w self <= size (_buf self) ->
  size (ring_contents self) = size (_buf self).
Proof.
  intros H. rewrite ring_contents_eq by assumption.
  rewrite size_app, size_skipn, size_firstn by lia. lia.
Qed.

(** One write pushes the block in at the young end of the ring and the
    same number of samples out at the old end. *)
Lemma write_ring_contents (x : list float) (self : MicWorker) :
  let L := size (_buf self) in
  0 <= _w self < L -> size x <= L ->
  fst (_write_ring x self) = Ok tt
  /\ ring_contents (snd (_write_ring x self))
     = lastn L (ring_contents self ++ x)
  /\ size (_buf (snd (_write_ring x self))) = L
  /\ 0 <= _w (snd (_write_ring x self)) < L.
Proof.
  intros L Hw Hx. pose proof (size_nonneg x) as Hx0.
  destruct (write_ring_outcome x self Hw) as (Ho & Hsz & Hrng).
  fold L in Ho, Hsz, Hrng.
  split.
  { rewrite Ho. destruct (Z.leb_spec (_w self + size x) (2 * L));
      [reflexivity|lia]. }
  split; [|split; assumption].
  rewrite (ring_contents_eq (snd (_write_ring x self))) by lia.
  rewrite ring_contents_eq by (fold L; lia).
  set (w := _w self) in *. set (buf := _buf self) in *.
  assert (Hfw : size (firstn (Z.to_nat w) buf) = w)
    by (apply size_firstn; fold L; lia).
  assert (Hsw : size (skipn (Z.to_nat w) buf) = L - w)
    by (rewrite size_skipn; fold L; lia).
  unfold lastn. rewrite !size_app, Hfw, Hsw.
  replace (L - w + w + size x - L) with (size x) by ring.
  destruct (Z.eq_dec (size x) 0) as [H0|H0].
  { rewrite write_ring_empty by assumption. cbn [snd]. fold w buf.
    apply size_zero_nil in H0 as ->. now rewrite app_nil_r. }
  destruct (Z_le_gt_dec (w + size x) L) as [Hflat|Hwrap].
  - rewrite write_ring_flat by (fold w buf L; lia). fold w buf L.
    cbn [snd _buf _w set_w set_buf].
    set (b' := firstn (Z.to_nat w) buf ++ x ++ skipn (Z.to_nat (w + size x)) buf).
    assert (Hsplit : skipn (Z.to_nat (size x))
                       ((skipn (Z.to_nat w) buf ++ firstn (Z.to_nat w) buf) ++ x)
                     = skipn (Z.to_nat (w + size x)) buf
                       ++ firstn (Z.to_nat w) buf ++ x).
    { rewrite <- app_assoc, skipn_app, skipn_skipn.
      replace (Z.to_nat (size x) + Z.to_nat w)%nat
        with (Z.to_nat (w + size x)) by lia.
      replace (Z.to_nat (size x) - List.length (skipn (Z.to_nat w) buf))%nat
        with 0%nat by (unfold size in Hsw; lia).
      reflexivity. }
    rewrite Hsplit.
    destruct (Z.eq_dec (w + size x) L) as [Hfull|Hpart].
    + rewrite Hfull, Z_mod_same_full. cbn [Z.to_nat skipn firstn].
      rewrite app_nil_r. unfold b'.
      rewrite Hfull, !skipn_all2 by (unfold L, size; lia).
      now rewrite app_nil_r.
    + rewrite Z.mod_small by lia. unfold b'.
      rewrite skipn_app, firstn_app.
      rewrite (skipn_all2 (firstn _ buf)) by (unfold size in Hfw; lia).
      rewrite (firstn_all2 (firstn (Z.to_nat w) buf)) by (unfold size in Hfw; lia).
      replace (Z.to_nat (w + size x) - List.length (firstn (Z.to_nat w) buf))%nat
        with (Z.to_nat (size x)) by (unfold size in Hfw; lia).
      rewrite skipn_app, firstn_app.
      rewrite (skipn_all2 x) by (unfold size; lia).
      rewrite (firstn_all2 x) by (unfold size; lia).
      replace (Z.to_nat (size x) - List.length x)%nat with 0%nat
        by (unfold size; lia).
      cbn [skipn firstn app]. now rewrite app_nil_r.
  - rewrite write_ring_wrapped by (fold w buf L; lia). fold w buf L.
    cbn [snd _buf _w set_w set_buf].
    assert (Hk : (w + size x) mod L = w + size x - L).
    { symmetry. apply (Z.mod_unique_pos _ _ 1); lia. }
    rewrite Hk.
    set (k := w + size x - L) in *.
    set (x1 := firstn (Z.to_nat (L - w)) x).
    set (x2 := skipn (Z.to_nat (L - w)) x).
    assert (Hs1 : size x1 = L - w) by (apply size_firstn; lia).
    assert (Hs2 : size x2 = k)
      by (unfold x2, k; rewrite size_skipn; lia).
    assert (Hold : skipn (Z.to_nat k) (firstn (Z.to_nat w) buf ++ x1)
                   = skipn (Z.to_nat k) (firstn (Z.to_nat w) buf) ++ x1).
    { rewrite skipn_app.
      replace (Z.to_nat k - List.length (firstn (Z.to_nat w) buf))%nat
        with 0%nat by (unfold size in Hfw; lia).
      reflexivity. }
    rewrite Hold.
    rewrite skipn_app, firstn_app.
    rewrite (skipn_all2 x2) by (unfold size in Hs2; lia).
    rewrite (firstn_all2 x2) by (unfold size in Hs2; lia).
    replace (Z.to_nat k - List.length x2)%nat with 0%nat
      by (unfold size in Hs2; lia).
    cbn [skipn firstn app]. rewrite app_nil_r.
    rewrite <- !app_assoc, skipn_app.
    rewrite (skipn_all2 (skipn _ buf)) by (unfold size in Hsw; lia).
    replace (Z.to_nat (size x) - List.length (skipn (Z.to_nat w) buf))%nat
      with (Z.to_nat k) by (unfold size in Hsw; lia).
    cbn [app]. rewrite skipn_app.
    replace (Z.to_nat k - List.length (firstn (Z.to_nat w) buf))%nat
      with 0%nat by (unfold size in Hfw; lia).
    cbn [skipn]. f_equal. apply firstn_skipn.
Qed.

Lemma lastn_app_lastn {A : Type} (a b : list A) (n : Z) :
  0 <= n -> lastn n (lastn n a ++ b) = lastn n (a ++ b).
Proof.
  intros Hn. destruct (Z_le_gt_dec n (size b)) as [Hb|Hb].
  - now rewrite !lastn_app_short by lia.
  - rewrite !lastn_app by lia. f_equal. apply lastn_lastn. 
    pose proof (size_nonneg b). lia.
Qed.

(** The window read takes the young end of the ring. *)
Lemma read_latest_window_contents (self : MicWorker) :
  let L := size (_buf self) in
  0 <= _w self < L -> 1 <= _need self <= L ->
  _read_latest_window self
  = (Ok (lastn (_need self) (ring_contents self)), self).
Proof.
  intros L Hw Hn.
  rewrite ring_contents_eq by (fold L; lia).
  unfold _read_latest_window, bind, get, lift, ret. fold L.
  rewrite py_mod_pos by lia.
  set (w := _w self) in *. set (need := _need self) in *.
  set (buf := _buf self) in *.
  assert (Hfw : size (firstn (Z.to_nat w) buf) = w)
    by (apply size_firstn; fold L; lia).
  assert (Hsw : size (skipn (Z.to_nat w) buf) = L - w)
    by (rewrite size_skipn; fold L; lia).
  unfold lastn. rewrite size_app, Hsw, Hfw.
  replace (L - w + w - need) with (L - need) by ring.
  destruct (Z_le_gt_dec need w) as [Hle|Hgt].
  - rewrite Z.mod_small by lia.
    destruct (Z.ltb_spec (w - need) w); [|lia].
    rewrite slice_range by (fold L; lia).
    replace (w - (w - need)) with need by ring.
    rewrite skipn_app.
    rewrite (skipn_all2 (skipn (Z.to_nat w) buf)) by (unfold size in Hsw; lia).
    replace (Z.to_nat (L - need) - List.length (skipn (Z.to_nat w) buf))%nat
      with (Z.to_nat (w - need)) by (unfold size in Hsw; lia).
    cbn [app]. rewrite skipn_firstn_comm.
    do 3 f_equal. lia.
  - assert (Hs : (w - need) mod L = w - need + L).
    { symmetry. apply (Z.mod_unique_pos _ _ (-1)); lia. }
    rewrite Hs.
    destruct (Z.ltb_spec (w - need + L) w); [lia|].
    rewrite slice_from, slice_to by lia.
    rewrite skipn_app, skipn_skipn.
    replace (Z.to_nat (L - need) + Z.to_nat w)%nat
      with (Z.to_nat (w - need + L)) by lia.
    replace (Z.to_nat (L - need) - List.length (skipn (Z.to_nat w) buf))%nat
      with 0%nat by (unfold size in Hsw; lia).
    reflexivity.
Qed.

(** How many samples the window read returns, whatever [_need] is. *)
Lemma read_latest_window_size (self : MicWorker) :
  let L := size (_buf self) in
  0 <= _w self < L ->
  exists window,
    _read_latest_window self = (Ok window, self)
    /\ size window = (_need self - 1) mod L + 1.
Proof.
  intros L Hw.
  unfold _read_latest_window, bind, get, lift, ret. fold L.
  rewrite py_mod_pos by lia.
  set (w := _w self) in *. set (need := _need self) in *.
  set (buf := _buf self) in *.
  pose proof (Z.mod_pos_bound (w - need) L ltac:(lia)) as Hs.
  pose proof (Z.div_mod (w - need) L ltac:(lia)) as Hdm.
  set (s := (w - need) mod L) in *.
  set (q := (w - need) / L) in *.
  destruct (Z.ltb_spec s w) as [Hlt|Hge].
  - eexists. split; [reflexivity|].
    rewrite slice_range by (fold L; lia).
    rewrite size_firstn by (rewrite size_skipn; fold L; lia).
    apply Z.add_cancel_r with (p := -1).
    replace (w - s + -1) with (w - s - 1) by ring.
    replace ((need - 1) mod L + 1 + -1) with ((need - 1) mod L) by ring.
    apply (Z.mod_unique_pos _ _ (- q)); [lia|]. nia.
  - eexists. split; [reflexivity|].
    rewrite slice_from, slice_to by lia.
    rewrite size_app, size_skipn, size_firstn by (fold L; lia). fold L.
    apply Z.add_cancel_r with (p := -1).
    replace (L - s + w + -1) with (L - s + w - 1) by ring.
    replace ((need - 1) mod L + 1 + -1) with ((need - 1) mod L) by ring.
    apply (Z.mod_unique_pos _ _ (- q - 1)); [lia|]. nia.
Qed.

Lemma write_all_contents (blocks : list (list float)) :
  forall self : MicWorker,
    let L := size (_buf self) in
    0 <= _w self < L ->
    Forall (fun x => size x <= L) blocks ->
    fst (write_all blocks self) = Ok tt
    /\ ring_contents (snd (write_all blocks self))
       = lastn L (ring_contents self ++ List.concat blocks)
    /\ size (_buf (snd (write_all blocks self))) = L
    /\ 0 <= _w (snd (write_all blocks self)) < L.
Proof.
  induction blocks as [|x blocks IH]; intros self L Hw Hall.
  - cbn [write_all List.concat]. unfold ret. cbn [fst snd].
    rewrite app_nil_r, lastn_all.
    + repeat split; try lia.
    + rewrite size_ring_contents by (fold L; lia). fold L. lia.
  - inversion Hall as [|? ? Hx Hrest]; subst.
    destruct (write_ring_contents x self Hw Hx) as (Ho & Hc & Hsz & Hrng).
    fold L in Hc, Hsz, Hrng.
    cbn [List.concat].
    destruct (_write_ring x self) as [[[]|e] self1] eqn:E; cbn [fst snd] in *;
      [|discriminate Ho].
    assert (Hrun : write_all (x :: blocks) self = write_all blocks self1)
      by (cbn [write_all]; unfold bind; now rewrite E).
    rewrite Hrun.
    pose proof (IH self1) as IH1. cbv zeta in IH1. rewrite Hsz in IH1.
    destruct (IH1 Hrng Hrest) as (Ho2 & Hc2 & Hsz2 & Hrng2).
    split; [exact Ho2|]. split; [|split; assumption].
    rewrite Hc2, Hc, app_assoc. apply lastn_app_lastn. lia.
Qed.

(** Without capacity the modulus of the window read divides by zero. *)
Lemma read_latest_window_empty (self : MicWorker) :
  size (_buf self) = 0 ->
  _read_latest_window self
  = (Raise (ZeroDivisionError "integer modulo by zero"), self).
Proof.
  intros HL. unfold _read_latest_window, bind, get, lift. now rewrite HL.
Qed.

(** X1. With the cursor inside the buffer, writing a block no longer
    than the capacity returns, and the ring read round from the cursor
    then holds the last [capacity] samples of what it held followed by
    the block: the block comes in at the young end and as many samples
    leave at the old end. *)
Theorem ring_write_pushes_block (x : list float) (self : MicWorker) :
  let L := size (_buf self) in
  0 <= _w self < L -> size x <= L ->
  fst (_write_ring x self) = Ok tt
  /\ ring_contents (snd (_write_ring x self))
     = lastn L (ring_contents self ++ x).
Proof.
  intros L Hw Hx.
  destruct (write_ring_contents x self Hw Hx) as (H1 & H2 & _).
  split; assumption.
Qed.

Lemma ring_write_pushes_block_witness :
  let x := [5%R; 6%R; 7%R] in
  (0 <= _w wrap_worker < size (_buf wrap_worker)
   /\ size x <= size (_buf wrap_worker))
  /\ ring_contents wrap_worker = [3%R; 4%R; 1%R; 2%R]
  /\ ring_contents (snd (_write_ring x wrap_worker))
     = [2%R; 5%R; 6%R; 7%R].
Proof.
  intros x.
  assert (H : 0 <= _w wrap_worker < size (_buf wrap_worker)
              /\ size x <= size (_buf wrap_worker))
    by (cbv; intuition discriminate).
  split; [exact H|]. destruct H as [H1 H2].
  split; [reflexivity|].
  rewrite (proj2 (ring_write_pushes_block x wrap_worker H1 H2)).
  reflexivity.
Defined.

(** X2. With the cursor inside the buffer and [1 <= need <= capacity],
    the window read returns the [need] youngest samples of the ring, in
    order, and does not change the worker. *)
Theorem window_is_young_end (self : MicWorker) :
  let L := size (_buf self) in
  0 <= _w self < L -> 1 <= _need self <= L ->
  fst (_read_latest_window self)
  = Ok (lastn (_need self) (ring_contents self))
  /\ size (lastn (_need self) (ring_contents self)) = _need self
  /\ snd (_read_latest_window self) = self.
Proof.
  intros L Hw Hn.
  rewrite read_latest_window_contents by assumption. cbn [fst snd].
  split; [reflexivity|]. split; [|reflexivity].
  apply size_lastn. rewrite size_ring_contents by (fold L; lia).
  fold L. lia.
Qed.

Lemma window_is_young_end_witness :
  (0 <= _w wrap_worker < size (_buf wrap_worker)
   /\ 1 <= _need wrap_worker <= size (_buf wrap_worker))
  /\ fst (_read_latest_window wrap_worker) = Ok [2%R].
Proof.
  assert (H : 0 <= _w wrap_worker < size (_buf wrap_worker)
              /\ 1 <= _need wrap_worker <= size (_buf wrap_worker))
    by (cbv; intuition discriminate).
  split; [exact H|]. destruct H as [H1 H2].
  rewrite (proj1 (window_is_young_end wrap_worker H1 H2)). reflexivity.
Defined.

(** X3. With the cursor inside the buffer the window read returns,
    whatever [_need] is, exactly [(need - 1) mod capacity + 1] samples:
    [need] of them only while [1 <= need <= capacity], the whole buffer
    for [need = 0], and fewer than [need] once [need] exceeds the
    capacity. *)
Theorem window_size_any_need (self : MicWorker) :
  let L := size (_buf self) in
  0 <= _w self < L ->
  exists window,
    fst (_read_latest_window self) = Ok window
    /\ size window = (_need self - 1) mod L + 1
    /\ (1 <= _need self <= L -> size window = _need self)
    /\ (_need self = 0 -> size window = L)
    /\ (L < _need self -> size window < _need self).
Proof.
  intros L Hw.
  destruct (read_latest_window_size self Hw) as (window & E & Hs).
  fold L in Hs. exists window. rewrite E. cbn [fst].
  split; [reflexivity|]. split; [exact Hs|].
  pose proof (Z.mod_pos_bound (_need self - 1) L ltac:(lia)) as Hb.
  split; [|split].
  - intros Hn. rewrite Hs, Z.mod_small; lia.
  - intros H0. rewrite Hs, H0.
    replace ((0 - 1) mod L) with (L - 1); [lia|].
    apply (Z.mod_unique_pos _ _ (-1)); lia.
  - intros Hn. lia.
Qed.

Lemma window_size_any_need_witness :
  let self := set_need 6 wrap_worker in
  0 <= _w self < size (_buf self)
  /\ exists window,
       fst (_read_latest_window self) = Ok window /\ size window = 2.
Proof.
  intros self.
  assert (H : 0 <= _w self < size (_buf self)) by (cbv; intuition discriminate).
  split; [exact H|].
  destruct (window_size_any_need self H) as (window & E & Hs & _).
  exists window. split; [exact E|]. rewrite Hs. reflexivity.
Defined.

(** X4. From any cursor inside the buffer, after any sequence of writes
    of blocks no longer than the capacity (their total may exceed it, the
    ring wraps), the window read of length [n], for [1 <= n <= capacity]
    with at least [n] samples written, returns exactly the last [n]
    samples written, in order. *)
Theorem ring_keeps_last_samples (self : MicWorker)
    (blocks : list (list float)) (n : Z) :
  let L := size (_buf self) in
  0 <= _w self < L ->
  Forall (fun x => size x <= L) blocks ->
  1 <= n <= L -> n <= size (List.concat blocks) ->
  fst (write_all blocks self) = Ok tt
  /\ fst (read_window n (snd (write_all blocks self)))
     = Ok (lastn n (List.concat blocks)).
Proof.
  intros L Hw Hall Hn Hlen.
  destruct (write_all_contents blocks self Hw Hall) as (Ho & Hc & Hsz & Hrng).
  fold L in Hc, Hsz, Hrng.
  split; [exact Ho|].
  set (self' := snd (write_all blocks self)) in *.
  unfold read_window, bind, modify. cbn [fst snd].
  assert (Hc' : ring_contents (set_need n self') = ring_contents self')
    by reflexivity.
  rewrite read_latest_window_contents; cbn [_buf _w _need set_need fst];
    rewrite ?Hsz; try lia.
  rewrite Hc', Hc, lastn_lastn by lia.
  now rewrite lastn_app_short by lia.
Qed.

Lemma ring_keeps_last_samples_witness :
  let blocks := [[5%R; 6%R; 7%R]; [8%R; 9%R; 10%R]] in
  (0 <= _w wrap_worker < size (_buf wrap_worker)
   /\ Forall (fun x => size x <= size (_buf wrap_worker)) blocks
   /\ 1 <= 4 <= size (_buf wrap_worker)
   /\ 4 <= size (List.concat blocks))
  /\ fst (read_window 4 (snd (write_all blocks wrap_worker)))
     = Ok [7%R; 8%R; 9%R; 10%R].
Proof.
  intros blocks.
  assert (H : 0 <= _w wrap_worker < size (_buf wrap_worker)
              /\ Forall (fun x => size x <= size (_buf wrap_worker)) blocks
              /\ 1 <= 4 <= size (_buf wrap_worker)
              /\ 4 <= size (List.concat blocks)).
  { split; [cbv; intuition discriminate|].
    split; [repeat constructor; cbv; discriminate|].
    cbv; intuition discriminate. }
  split; [exact H|]. destruct H as (H1 & H2 & H3 & H4).
  rewrite (proj2 (ring_keeps_last_samples wrap_worker blocks 4 H1 H2 H3 H4)).
  reflexivity.
Defined.

(** X5. With the cursor inside the buffer, a write of any block keeps the
    capacity and leaves the cursor inside the buffer; it raises exactly
    when cursor + block length exceeds twice the capacity, and then the
    cursor has not moved. *)
Theorem write_ring_keeps_capacity (x : list float) (self : MicWorker) :
  let L := size (_buf self) in
  0 <= _w self < L ->
  size (_buf (snd (_write_ring x self))) = L
  /\ 0 <= _w (snd (_write_ring x self)) < L
  /\ (is_ok (fst (_write_ring x self)) = false <-> 2 * L < _w self + size x)
  /\ (is_ok (fst (_write_ring x self)) = false ->
      _w (snd (_write_ring x self)) = _w self).
Proof.
  intros L Hw.
  destruct (write_ring_outcome x self Hw) as (Ho & Hsz & Hrng).
  fold L in Ho, Hsz, Hrng.
  split; [exact Hsz|]. split; [exact Hrng|].
  rewrite Ho.
  destruct (Z.leb_spec (_w self + size x) (2 * L)) as [Hfit|Hlong];
    cbn [is_ok].
  - split; [split; [discriminate|lia]|discriminate].
  - split; [split; [intros _; exact Hlong|reflexivity]|].
    intros _. rewrite write_ring_too_long by (fold L; lia). reflexivity.
Qed.

Lemma write_ring_keeps_capacity_witness :
  let x := [5%R; 6%R; 7%R; 8%R; 9%R; 10%R; 11%R] in
  0 <= _w wrap_worker < size (_buf wrap_worker)
  /\ size (_buf (snd (_write_ring x wrap_worker))) = 4
  /\ _w (snd (_write_ring x wrap_worker)) = 2.
Proof.
  intros x.
  assert (H : 0 <= _w wrap_worker < size (_buf wrap_worker))
    by (cbv; intuition discriminate).
  split; [exact H|].
  destruct (write_ring_keeps_capacity x wrap_worker H) as (H1 & _ & H3 & H4).
  split; [exact H1|].
  apply H4. apply H3. cbv. reflexivity.
Defined.

(** X6. A worker whose ring has no capacity (a window shorter than one
    sample): the window read raises [ZeroDivisionError] and leaves the
    worker as it was, and a write of a non-empty block raises too, with
    the buffer still empty and the cursor still 0. *)
Theorem empty_ring_raises (x : list float) (self : MicWorker) :
  size (_buf self) = 0 ->
  _read_latest_window self
  = (Raise (ZeroDivisionError "integer modulo by zero"), self)
  /\ (_w self = 0 -> 0 < size x ->
      is_ok (fst (_write_ring x self)) = false
      /\ _buf (snd (_write_ring x self)) = []
      /\ _w (snd (_write_ring x self)) = 0).
Proof.
  intros HL. split.
  - now apply read_latest_window_empty.
  - intros Hw Hx. pose proof (size_zero_nil _ HL) as Hb.
    unfold _write_ring.
    destruct (Z.leb_spec (size x) 0) as [|_]; [lia|].
    unfold bind, get, modify, lift. rewrite Hb, Hw.
    change (size (@nil float)) with 0.
    destruct (Z.leb_spec (0 + size x) 0) as [|_]; [lia|].
    change (0 - 0) with 0.
    rewrite slice_to, slice_from by lia. cbn [Z.to_nat firstn skipn].
    assert (E3 : set_slice (@nil float) (Some 0) None [] = Ok [])
      by reflexivity.
    rewrite E3. cbn [fst snd _buf set_buf].
    assert (Hhi : hi_bound (size (@nil float)) (Some (0 + size x - 0)) = 0).
    { cbn [hi_bound]. unfold clamp. change (size (@nil float)) with 0.
      destruct (Z.ltb_spec (0 + size x - 0) 0); lia. }
    destruct (Z.eq_dec (size x) 1) as [H1|H1].
    + destruct x as [|v [|v' x']]; try (cbn in H1; lia).
      assert (E4 : set_slice (@nil float) None (Some (0 + size [v] - 0)) [v]
                   = Ok []) by reflexivity.
      rewrite E4. cbn. repeat split; assumption.
    + rewrite (set_slice_misfit _ _ _ _ 0 0); [| reflexivity | exact Hhi
                                               | cbn; lia | exact H1].
      cbn. repeat split; assumption.
Qed.

Lemma empty_ring_raises_witness :
  size (_buf (demo_worker 0)) = 0
  /\ fst (_read_latest_window (demo_worker 0))
     = Raise (ZeroDivisionError "integer modulo by zero")
  /\ is_ok (fst (_write_ring [1%R] (demo_worker 0))) = false.
Proof.
  assert (H : size (_buf (demo_worker 0)) = 0) by reflexivity.
  split; [exact H|].
  destruct (empty_ring_raises [1%R] (demo_worker 0) H) as (E & Hwr).
  split; [now rewrite E|].
  apply Hwr; [reflexivity|cbv; reflexivity].
Defined.

Local Open Scope R_scope.

(** ** More on the callback and the level *)

Lemma sum_squares_bounds (x : list float) (A : float) :
  Forall (fun v => - A <= v <= A) x ->
  0 <= fold_right Rplus 0 (map (fun v => v * v) x)
       <= IZR (size x) * (A * A).
Proof.
  induction 1 as [|v x Hv Hx IH].
  - cbn. lra.
  - cbn [map fold_right]. unfold size in *. cbn [List.length].
    rewrite Nat2Z.inj_succ, succ_IZR.
    assert (Hsq : 0 <= v * v <= A * A).
    { split; nra. }
    lra.
Qed.

Lemma mean_square_bounds (x : list float) (A : float) :
  x <> [] -> Forall (fun v => - A <= v <= A) x ->
  0 <= np_mean (map (fun v => v * v) x) <= A * A.
Proof.
  intros Hne Hall. unfold np_mean.
  assert (Hsz : forall f : float -> float, size (map f x) = size x)
    by (intros f; unfold size; now rewrite length_map).
  rewrite Hsz.
  destruct (sum_squares_bounds x A Hall) as [H0 H1].
  assert (Hn : 0 < IZR (size x)).
  { apply IZR_lt. destruct x; [contradiction|]. unfold size. cbn. lia. }
  split.
  - unfold Rdiv. apply Rmult_le_pos; [exact H0|].
    apply Rlt_le, Rinv_0_lt_compat, Hn.
  - apply Rmult_le_reg_r with (r := IZR (size x)); [exact Hn|].
    unfold Rdiv. rewrite Rmult_assoc, Rinv_l by lra. lra.
Qed.

Lemma sqrt_eps : sqrt 1e-12 = 1e-6.
Proof.
  replace 1e-12 with (1e-6 * 1e-6) by lra. apply sqrt_square. lra.
Qed.

(** The floor of 1e-12 under the square root keeps the instantaneous
    level of a block at 1e-6 or more, and samples bounded by [A] keep it
    at [sqrt (A^2 + 1e-12)] or less. *)
Lemma block_rms_bounds (x : list float) (A : float) :
  x <> [] -> Forall (fun v => - A <= v <= A) x ->
  1e-6 <= block_rms x <= sqrt (A * A + 1e-12).
Proof.
  intros Hne Hall. destruct (mean_square_bounds x A Hne Hall) as [H0 H1].
  unfold block_rms. split.
  - rewrite <- sqrt_eps. apply sqrt_le_1_alt. lra.
  - apply sqrt_le_1_alt. lra.
Qed.

Lemma ln_10_pos : 0 < ln 10.
Proof. rewrite <- ln_1. apply ln_increasing; lra. Qed.

Lemma log10_micro : log10 1e-6 = -6.
Proof.
  unfold log10. replace 1e-6 with (/ 10 ^ 6) by (simpl; lra).
  rewrite ln_Rinv by (apply pow_lt; lra).
  rewrite ln_pow by lra. pose proof ln_10_pos as H. simpl INR.
  replace ((1 + 1 + 1 + 1 + 1 + 1) * ln 10) with (6 * ln 10) by ring.
  assert (E : @eq R (- (6 * ln 10) / ln 10) (-6)) by (field; lra).
  exact E.
Qed.

Lemma log10_increasing (a b : float) : 0 < a -> a < b -> log10 a < log10 b.
Proof.
  intros Ha Hab. unfold log10. pose proof ln_10_pos.
  apply Rmult_lt_compat_r; [now apply Rinv_0_lt_compat|].
  now apply ln_increasing.
Qed.

(** X7. [_rms_db] on a non-empty array whose samples lie in [-A, A]
    returns without raising; the level it returns is the one the callback
    computes for the same block, it lies between 1e-6 and
    [sqrt (A^2 + 1e-12)], and the dB value is [20 log10 (rms + 1e-12)],
    above -120. *)
Theorem rms_db_bounds (audio : list float) (A : float) :
  audio <> [] -> Forall (fun v => - A <= v <= A) audio ->
  exists rms db,
    _rms_db audio = Ok (rms, db)
    /\ rms = block_rms audio
    /\ 1e-6 <= rms <= sqrt (A * A + 1e-12)
    /\ db = 20 * log10 (rms + 1e-12)
    /\ -120 < db.
Proof.
  intros Hne Hall.
  destruct (block_rms_bounds audio A Hne Hall) as [Hlo Hhi].
  exists (block_rms audio), (20 * log10 (block_rms audio + 1e-12)).
  unfold _rms_db. fold (block_rms audio). unfold math_log10.
  destruct (Rlt_dec 0 (block_rms audio + 1e-12)) as [_|Hn]; [|exfalso; lra].
  split; [reflexivity|]. split; [reflexivity|]. split; [lra|].
  split; [reflexivity|].
  assert (H : log10 1e-6 < log10 (block_rms audio + 1e-12))
    by (apply log10_increasing; lra).
  rewrite log10_micro in H. lra.
Qed.

Lemma rms_db_bounds_witness :
  ([0; 0] <> (@nil float) /\ Forall (fun v => - 1 <= v <= 1) [0; 0])
  /\ exists rms db, _rms_db [0; 0] = Ok (rms, db) /\ -120 < db.
Proof.
  assert (H : [0; 0] <> (@nil float)
              /\ Forall (fun v => - 1 <= v <= 1) [0; 0]).
  { split; [discriminate|]. repeat constructor; lra. }
  split; [exact H|]. destruct H as [H1 H2].
  destruct (rms_db_bounds [0; 0] 1 H1 H2) as (rms & db & E & _ & _ & _ & Hdb).
  exists rms, db. split; assumption.
Defined.

(** X8. One callback moves the smoothed meter to a point between its old
    value and the level of the block, and publishes that value in
    [state.rms]; for a non-empty block with samples in [-A, A] the level
    of the block lies between 1e-6 and [sqrt (A^2 + 1e-12)]. *)
Theorem meter_moves_towards_block (indata : ndarray2) (status : string)
    (now A : float) (self : MicWorker) :
  let r := block_rms (column0 indata) in
  let self' := snd (_callback indata status now self) in
  0 <= _meter_alpha self <= 1 ->
  Rmin (_meter_rms self) r <= _meter_rms self' <= Rmax (_meter_rms self) r
  /\ rms (state self') = _meter_rms self'
  /\ (column0 indata <> [] ->
      Forall (fun v => - A <= v <= A) (column0 indata) ->
      1e-6 <= r <= sqrt (A * A + 1e-12)).
Proof.
  intros r self' Ha.
  destruct (callback_meter indata status now self) as (Hm & Hr & _).
  fold self' r in Hm, Hr.
  split; [|split; [exact Hr|apply block_rms_bounds]].
  rewrite Hm. unfold Rmin, Rmax.
  destruct (Rle_dec (_meter_rms self) r); split; nra.
Qed.

Lemma meter_moves_towards_block_witness :
  let self := demo_worker 1 in
  let self' := snd (_callback (mkBlock [1; -1] []) EmptyString 1 self) in
  0 <= _meter_alpha self <= 1
  /\ 0 <= _meter_rms self' <= sqrt (1 * 1 + 1e-12).
Proof.
  intros self self'.
  assert (Ha : 0 <= _meter_alpha self <= 1) by (cbn; lra).
  split; [exact Ha|].
  destruct (meter_moves_towards_block (mkBlock [1; -1] []) EmptyString 1 1
              self Ha) as (Hm & _ & Hb).
  fold self' in Hm. cbv zeta in Hb. cbn [column0] in *.
  assert (H1 : [1; -1] <> (@nil float)) by discriminate.
  assert (H2 : Forall (fun v => - 1 <= v <= 1) [1; -1])
    by (repeat constructor; lra).
  specialize (Hb H1 H2).
  change (_meter_rms self) with 0 in Hm.
  unfold Rmin, Rmax in Hm.
  destruct (Rle_dec 0 (block_rms [1; -1])); lra.
Defined.

(** X9. With a smoothing constant in [0, 1]: if the meter starts in
    [0, B] and the level of every block of a run of callbacks is at most
    [B], the meter is in [0, B] after the run, and the smoothing constant
    is what it was. Blocks that make the ring write raise count too. *)
Theorem meter_stays_bounded (calls : list (ndarray2 * string * float))
    (B : float) :
  forall self : MicWorker,
    0 <= _meter_alpha self <= 1 ->
    0 <= _meter_rms self <= B ->
    Forall (fun r => r <= B) (block_rms_values calls) ->
    0 <= _meter_rms (callbacks calls self) <= B
    /\ _meter_alpha (callbacks calls self) = _meter_alpha self.
Proof.
  induction calls as [|[[indata status] now] calls IH]; intros self Ha Hm Hall.
  - split; [exact Hm|reflexivity].
  - cbn [callbacks]. cbn [block_rms_values map fst] in Hall.
    inversion Hall as [|? ? Hr Hrest]; subst.
    destruct (callback_meter indata status now self) as (Hm' & _ & Ha').
    cbv zeta in Hm', Ha'.
    pose proof (block_rms_nonneg (column0 indata)) as Hr0.
    destruct (IH (snd (_callback indata status now self))) as [H1 H2].
    + rewrite Ha'. exact Ha.
    + rewrite Hm'. split; nra.
    + exact Hrest.
    + split; [exact H1|congruence].
Qed.

Lemma meter_stays_bounded_witness :
  let calls := [(mkBlock [0] [], EmptyString, 1);
                (mkBlock [0] [], EmptyString, 2)] in
  let self := demo_worker 1 in
  (0 <= _meter_alpha self <= 1
   /\ 0 <= _meter_rms self <= 1e-6
   /\ Forall (fun r => r <= 1e-6) (block_rms_values calls))
  /\ 0 <= _meter_rms (callbacks calls self) <= 1e-6.
Proof.
  intros calls self.
  assert (Hsilent : block_rms [0] <= 1e-6).
  { destruct (block_rms_bounds [0] 0) as [_ Hhi];
      [discriminate|repeat constructor; lra|].
    replace (0 * 0 + 1e-12) with 1e-12 in Hhi by lra.
    now rewrite sqrt_eps in Hhi. }
  assert (H : 0 <= _meter_alpha self <= 1
              /\ 0 <= _meter_rms self <= 1e-6
              /\ Forall (fun r => r <= 1e-6) (block_rms_values calls)).
  { split; [cbn; lra|]. split; [cbn; lra|].
    constructor; [exact Hsilent|]. constructor; [exact Hsilent|constructor]. }
  split; [exact H|]. destruct H as (H1 & H2 & H3).
  exact (proj1 (meter_stays_bounded calls 1e-6 self H1 H2 H3)).
Defined.

(** X10. On a worker ready for the callback, the heartbeat is stamped
    exactly when the callback returns: with cursor + block length at most
    twice the capacity [last_cb_ts] becomes [now]; with a longer block
    the callback raises and [last_cb_ts] keeps its old value, although
    the meter and [state.rms] have been updated. *)
Theorem heartbeat_iff_callback_returns (indata : ndarray2)
    (status : string) (now : float) (self : MicWorker) :
  let self' := snd (_callback indata status now self) in
  callback_ready self ->
  ((_w self + size (column0 indata) <= 2 * size (_buf self))%Z ->
   last_cb_ts (state self') = now)
  /\ ((2 * size (_buf self) < _w self + size (column0 indata))%Z ->
      last_cb_ts (state self') = last_cb_ts (state self)
      /\ rms (state self') = _meter_rms self'
      /\ _meter_rms self'
         = _meter_alpha self * block_rms (column0 indata)
           + (1 - _meter_alpha self) * _meter_rms self).
Proof.
  intros self' Hready.
  destruct (callback_outcome indata status now self Hready) as (Ho & _).
  destruct (callback_meter indata status now self) as (Hm & Hr & _).
  fold self' in Hm, Hr.
  assert (Hts : last_cb_ts (state self')
                = match fst (_callback indata status now self) with
                  | Ok _ => now
                  | Raise _ => last_cb_ts (state self)
                  end).
  { unfold self'. rewrite callback_unfold. cbv zeta.
    set (s1 := after_meter (column0 indata) (after_status status self)).
    assert (H1 : last_cb_ts (state s1) = last_cb_ts (state self)).
    { unfold s1, after_meter, after_status.
      destruct (truthy status); [destruct (contains _ _)|]; reflexivity. }
    destruct (math_log10 _) as [d|e]; cbn [fst snd]; [|exact H1].
    set (s1' := set_state (set_db (20 * d)) s1).
    destruct (write_ring_state (column0 indata) s1') as (Hst & _).
    destruct (_write_ring (column0 indata) s1') as [[[]|e] s2];
      cbn [fst snd] in *; [reflexivity|].
    rewrite Hst. exact H1. }
  rewrite Hts, Ho. split.
  - intros Hfit. destruct (Z.leb_spec (_w self + size (column0 indata))
                             (2 * size (_buf self))); [reflexivity|lia].
  - intros Hlong. destruct (Z.leb_spec (_w self + size (column0 indata))
                              (2 * size (_buf self))); [lia|].
    repeat split; assumption.
Qed.

Lemma heartbeat_iff_callback_returns_witness :
  let self := demo_worker 1 in
  let long := mkBlock [1; 2; 3; 4; 5; 6; 7; 8; 9] [] in
  callback_ready self
  /\ last_cb_ts (state (snd (_callback (mkBlock [1] []) EmptyString 5 self)))
     = 5
  /\ last_cb_ts (state (snd (_callback long EmptyString 5 self))) = 0.
Proof.
  intros self long.
  assert (Hr : callback_ready self) by (apply demo_worker_ready; lia).
  split; [exact Hr|]. split.
  - apply (proj1 (heartbeat_iff_callback_returns (mkBlock [1] []) EmptyString
                    5 self Hr)). cbv. discriminate.
  - apply (proj2 (heartbeat_iff_callback_returns long EmptyString 5 self Hr)).
    cbv. reflexivity.
Defined.

(** ** More on the supervisor *)

Lemma sys_step_stop_flag (i : input) (s : Sys) :
  _stop (worker (fst (sys_step i s)))
  = match i with StopRequest => true | _ => _stop (worker s) end.
Proof.
  destruct i as [indata status now| |env]; cbn [sys_step].
  - destruct (callback_fields indata status now (worker s))
      as (_ & _ & _ & _ & _ & Hs). cbv zeta in Hs.
    destruct (_callback indata status now (worker s)) as [[[]|e] self'];
      cbn [fst snd worker] in *; exact Hs.
  - reflexivity.
  - destruct (sup_step_frame env s) as (_ & _ & Hs). exact Hs.
Qed.

Lemma sys_step_pc (i : input) (s : Sys) :
  match i with
  | Supervisor _ => True
  | _ => at_pc (fst (sys_step i s)) = at_pc s
         /\ opens (snd (sys_step i s)) = 0%nat
         /\ stops (snd (sys_step i s)) = 0%nat
         /\ slept (snd (sys_step i s)) = 0
  end.
Proof.
  destruct i as [indata status now| |env]; cbn [sys_step]; [| |exact I].
  - destruct (_callback indata status now (worker s)) as [[[]|e] self'];
      repeat split.
  - repeat split.
Qed.

Lemma sup_steps_cons (i : input) (inputs : list input) :
  sup_steps (i :: inputs)
  = (match i with Supervisor _ => 1 | _ => 0 end + sup_steps inputs)%nat.
Proof. now destruct i. Qed.

(** With the stop flag set, a step of the supervisor moves one program
    point closer to the return, opens nothing and sleeps at most the
    handler's 0.5 s. *)
Lemma sup_step_stopping (env : Env) (s : Sys) :
  _stop (worker s) = true ->
  (steps_to_return (at_pc (fst (sup_step env s)))
   = steps_to_return (at_pc s) - 1)%nat
  /\ opens (snd (sup_step env s)) = 0%nat
  /\ 0 <= slept (snd (sup_step env s)) <= 0.5
  /\ (slept (snd (sup_step env s)) <> 0 -> exists e st, at_pc s = AtExcept e st).
Proof.
  destruct s as [self p]. cbn [worker at_pc]. intros Hs.
  destruct p as [|st lr|e st|st|].
  - rewrite outer_stop by assumption. cbn. repeat split; try lra;
      try (intros H; now contradiction H).
  - rewrite stop_tick by assumption. cbn. repeat split; try lra;
      try (intros H; now contradiction H).
  - rewrite except_step. cbn. repeat split; try lra.
    now exists e, st.
  - rewrite finally_step, Hs, app_nil_r. cbn [fst snd at_pc steps_to_return].
    destruct (teardown_no_sleep env st) as [-> ->].
    repeat split; try lra; try (intros H; now contradiction H).
  - cbn. repeat split; try lra; try (intros H; now contradiction H).
Qed.

(** X11. Once the stop flag is set it stays set through any run of
    callbacks, stop requests and supervisor steps, no stream is opened
    any more, and each supervisor step brings [run_loop] one program
    point closer to its return: three supervisor steps reach it from
    anywhere, and it stays returned. On the way the supervisor sleeps
    0.5 s if the flag found it entering the exception handler, and not
    at all otherwise. *)
Theorem stop_request_returns (inputs : list input) :
  forall s : Sys,
    _stop (worker s) = true ->
    let r := run inputs s in
    _stop (worker (fst r)) = true
    /\ (steps_to_return (at_pc (fst r))
        = steps_to_return (at_pc s) - sup_steps inputs)%nat
    /\ opens (snd r) = 0%nat
    /\ 0 <= slept (snd r)
          <= match at_pc s with AtExcept _ _ => 0.5 | _ => 0 end
    /\ ((3 <= sup_steps inputs)%nat -> at_pc (fst r) = Returned).
Proof.
  assert (Hmain : forall s : Sys,
    _stop (worker s) = true ->
    _stop (worker (fst (run inputs s))) = true
    /\ (steps_to_return (at_pc (fst (run inputs s)))
        = steps_to_return (at_pc s) - sup_steps inputs)%nat
    /\ opens (snd (run inputs s)) = 0%nat
    /\ 0 <= slept (snd (run inputs s))
          <= match at_pc s with AtExcept _ _ => 0.5 | _ => 0 end).
  { induction inputs as [|i inputs IH]; intros s Hs.
    - cbn. repeat split; try exact Hs; try lia; destruct (at_pc s); lra.
    - cbn [run].
      pose proof (sys_step_stop_flag i s) as Hflag.
      pose proof (sys_step_pc i s) as Hpc.
      assert (Hs1 : _stop (worker (fst (sys_step i s))) = true)
        by (rewrite Hflag; destruct i; [exact Hs|reflexivity|exact Hs]).
      assert (Hstep :
        (steps_to_return (at_pc (fst (sys_step i s)))
         = steps_to_return (at_pc s)
           - match i with Supervisor _ => 1 | _ => 0 end)%nat
        /\ opens (snd (sys_step i s)) = 0%nat
        /\ 0 <= slept (snd (sys_step i s))
        /\ slept (snd (sys_step i s))
           + match at_pc (fst (sys_step i s)) with
             | AtExcept _ _ => 0.5 | _ => 0 end
           <= match at_pc s with AtExcept _ _ => 0.5 | _ => 0 end).
      { destruct i as [indata status now| |env].
        - destruct Hpc as (-> & -> & _ & ->).
          split; [lia|]. split; [reflexivity|]. split; [lra|].
          destruct (at_pc s); lra.
        - destruct Hpc as (-> & -> & _ & ->).
          split; [lia|]. split; [reflexivity|]. split; [lra|].
          destruct (at_pc s); lra.
        - cbn [sys_step].
          destruct (sup_step_stopping env s Hs) as (H1 & H2 & H3 & H4).
          split; [exact H1|]. split; [exact H2|].
          assert (Hnot : match at_pc (fst (sup_step env s)) with
                         | AtExcept _ _ => 0.5 | _ => 0 end = 0).
          { destruct (at_pc (fst (sup_step env s))); try reflexivity.
            destruct (at_pc s); cbn [steps_to_return] in H1; lia. }
          rewrite Hnot. split; [lra|].
          destruct (Req_dec_T (slept (snd (sup_step env s))) 0) as [E|E].
          + rewrite E. destruct (at_pc s); lra.
          + destruct (H4 E) as (e & st & ->). lra. }
      destruct Hstep as (Hd & Ho & Hsl0 & Hsl).
      destruct (sys_step i s) as [s1 evs1]. cbn [fst snd] in *.
      destruct (IH s1 Hs1) as (H1 & H2 & H3 & H4).
      destruct (run inputs s1) as [s2 evs2]. cbn [fst snd] in *.
      split; [exact H1|]. split; [|split].
      + rewrite H2, Hd, sup_steps_cons. symmetry. apply Nat.sub_add_distr.
      + rewrite opens_app, Ho, H3. reflexivity.
      + rewrite slept_app. lra. }
  intros s Hs. cbv zeta. destruct (Hmain s Hs) as (H1 & H2 & H3 & H4).
  split; [exact H1|]. split; [exact H2|]. split; [exact H3|].
  split; [exact H4|].
  intros H3s.
  assert (Hz : steps_to_return (at_pc (fst (run inputs s))) = 0%nat).
  { rewrite H2. destruct (at_pc s); cbn [steps_to_return]; lia. }
  destruct (at_pc (fst (run inputs s))); cbn in Hz; try discriminate Hz.
  reflexivity.
Qed.

Lemma stop_request_returns_witness :
  let s := mkSys (snd (stop running_worker)) (AtInner 7%nat 0) in
  let inputs := [Supervisor (calm 3 7%nat);
                 Callback (mkBlock [1] []) EmptyString 3;
                 Supervisor (stop_fails 3); Supervisor (calm 3 7%nat)] in
  _stop (worker s) = true
  /\ at_pc (fst (run inputs s)) = Returned.
Proof.
  intros s inputs.
  assert (H : _stop (worker s) = true) by reflexivity.
  split; [exact H|].
  destruct (stop_request_returns inputs s H) as (_ & _ & _ & _ & Hret).
  apply Hret. cbv. lia.
Defined.

Lemma sup_step_goes_on (env : Env) (s : Sys) :
  _stop (worker s) = false -> at_pc s <> Returned ->
  at_pc (fst (sup_step env s)) <> Returned.
Proof.
  destruct s as [self p]. cbn [worker at_pc]. intros Hs Hp.
  unfold sup_step. cbn [at_pc worker].
  destruct p as [|st lr|e st|st|]; cbn [fst].
  - unfold step_outer. rewrite Hs. cbn [negb].
    destruct (_open_stream env self) as [[st|e] self1]; [|discriminate].
    destruct (stream_start env); discriminate.
  - unfold step_inner. rewrite Hs. cbn [negb].
    destruct (_ && _); [discriminate|].
    destruct (Rgeb _ _); [|discriminate].
    destruct (cadence_block self) as [[[]|e] self1]; discriminate.
  - discriminate.
  - unfold step_finally. destruct (negb (_stop self)); discriminate.
  - contradiction.
Qed.

(** X12. No error ends the supervisor: in a run without a stop request,
    started with the stop flag down at any program point before the
    return, [run_loop] has not returned at the end of the run and the
    flag is still down, whatever the outside world answers and whatever
    the callbacks raise. *)
Theorem returns_only_on_stop (inputs : list input) :
  forall s : Sys,
    no_stop_request inputs ->
    _stop (worker s) = false -> at_pc s <> Returned ->
    _stop (worker (fst (run inputs s))) = false
    /\ at_pc (fst (run inputs s)) <> Returned.
Proof.
  induction inputs as [|i inputs IH]; intros s Hno Hs Hp.
  - split; assumption.
  - inversion Hno as [|? ? Hi Hrest]; subst. cbn [run].
    pose proof (sys_step_stop_flag i s) as Hflag.
    pose proof (sys_step_pc i s) as Hpc.
    assert (H1 : _stop (worker (fst (sys_step i s))) = false
                 /\ at_pc (fst (sys_step i s)) <> Returned).
    { destruct i as [indata status now| |env].
      - destruct Hpc as (-> & _). rewrite Hflag. split; assumption.
      - contradiction.
      - rewrite Hflag. split; [exact Hs|].
        cbn [sys_step]. now apply sup_step_goes_on. }
    destruct H1 as [Hs1 Hp1].
    destruct (sys_step i s) as [s1 evs1]. cbn [fst] in *.
    specialize (IH s1 Hrest Hs1 Hp1).
    destruct (run inputs s1) as [s2 evs2]. exact IH.
Qed.

Lemma returns_only_on_stop_witness :
  let s := mkSys running_worker AtOuter in
  let inputs := [Supervisor (no_device 0); Supervisor (calm 0 7%nat);
                 Supervisor (stop_fails 1);
                 Callback (mkBlock [1; 2; 3; 4; 5; 6; 7; 8; 9] []) "x" 1] in
  (no_stop_request inputs
   /\ _stop (worker s) = false /\ at_pc s <> Returned)
  /\ at_pc (fst (run inputs s)) <> Returned.
Proof.
  intros s inputs.
  assert (H : no_stop_request inputs
              /\ _stop (worker s) = false /\ at_pc s <> Returned).
  { split; [repeat constructor|]. split; [reflexivity|discriminate]. }
  split; [exact H|]. destruct H as (H1 & H2 & H3).
  exact (proj2 (returns_only_on_stop inputs s H1 H2 H3)).
Defined.

Lemma stops_app (a b : list event) : stops (a ++ b) = (stops a + stops b)%nat.
Proof. unfold stops. now rewrite filter_app, length_app. Qed.

Lemma sup_step_streams (env : Env) (s : Sys) :
  (opens (snd (sup_step env s)) + holding (at_pc s))%nat
  = (stops (snd (sup_step env s)) + holding (at_pc (fst (sup_step env s))))%nat.
Proof.
  destruct s as [self p]. unfold sup_step. cbn [at_pc worker].
  destruct p as [|st lr|e st|st|].
  - unfold step_outer. destruct (negb (_stop self)); [|reflexivity].
    destruct (_open_stream env self) as [[st|e] self1]; [|reflexivity].
    destruct (stream_start env); reflexivity.
  - unfold step_inner. destruct (negb (_stop self)); [|reflexivity].
    destruct (_ && _); [reflexivity|].
    destruct (Rgeb _ _); [|reflexivity].
    destruct (cadence_block self) as [[[]|e] self1]; reflexivity.
  - reflexivity.
  - unfold step_finally, except_pass, teardown_body.
    destruct st as [h|]; [destruct (stream_stop env)|];
      destruct (negb (_stop self)); reflexivity.
  - reflexivity.
Qed.

(** X13. Over any run from any state, the streams opened plus the one
    held at the start equal the streams [stop()] was called on plus the
    one held at the end: the supervisor never holds two streams and
    never lets go of one without calling [stop()] on it. From the outer
    loop test to the return every stream opened has been stopped. *)
Theorem every_stream_is_stopped (inputs : list input) :
  forall s : Sys,
    let r := run inputs s in
    (opens (snd r) + holding (at_pc s))%nat
    = (stops (snd r) + holding (at_pc (fst r)))%nat
    /\ (at_pc s = AtOuter -> at_pc (fst r) = Returned ->
        opens (snd r) = stops (snd r)).
Proof.
  assert (Hmain : forall s : Sys,
    (opens (snd (run inputs s)) + holding (at_pc s))%nat
    = (stops (snd (run inputs s)) + holding (at_pc (fst (run inputs s))))%nat).
  { induction inputs as [|i inputs IH]; intros s.
    - reflexivity.
    - cbn [run].
      assert (Hstep :
        (opens (snd (sys_step i s)) + holding (at_pc s))%nat
        = (stops (snd (sys_step i s))
           + holding (at_pc (fst (sys_step i s))))%nat).
      { pose proof (sys_step_pc i s) as Hpc.
        destruct i as [indata status now| |env].
        - destruct Hpc as (-> & -> & -> & _). reflexivity.
        - destruct Hpc as (-> & -> & -> & _). reflexivity.
        - apply sup_step_streams. }
      destruct (sys_step i s) as [s1 evs1]. cbn [fst snd] in *.
      specialize (IH s1).
      destruct (run inputs s1) as [s2 evs2]. cbn [fst snd] in *.
      rewrite opens_app, stops_app. lia. }
  intros s. cbv zeta. split; [apply Hmain|].
  intros H0 H1. specialize (Hmain s). rewrite H0, H1 in Hmain.
  cbn in Hmain. lia.
Qed.

Lemma every_stream_is_stopped_witness :
  let s := mkSys (demo_worker 1) AtOuter in
  let inputs := [Supervisor (calm 0 7%nat); StopRequest;
                 Supervisor (calm 1 7%nat); Supervisor (stop_fails 1);
                 Supervisor (calm 1 7%nat)] in
  (at_pc s = AtOuter /\ at_pc (fst (run inputs s)) = Returned)
  /\ opens (snd (run inputs s)) = stops (snd (run inputs s))
  /\ stops (snd (run inputs s)) = 1%nat.
Proof.
  intros s inputs.
  assert (H : at_pc s = AtOuter /\ at_pc (fst (run inputs s)) = Returned)
    by (split; reflexivity).
  split; [exact H|]. destruct H as [H1 H2].
  split; [exact (proj2 (every_stream_is_stopped inputs s) H1 H2)|].
  reflexivity.
Defined.

Lemma stream_error_not_stall (e : exn) : stream_error e <> stall_message.
Proof. unfold stream_error, stall_message. cbn. discriminate. Qed.

Lemma open_stream_last_error (env : Env) (self : MicWorker) :
  last_error (state (snd (_open_stream env self))) = last_error (state self).
Proof.
  unfold _open_stream, bind, get, modify, lift.
  destruct (query_devices env); [|reflexivity].
  destruct (InputStream env); reflexivity.
Qed.

Lemma sup_step_unarmed (env : Env) (s : Sys) :
  last_cb_ts (state (worker s)) = 0 ->
  last_error (state (worker s)) <> stall_message ->
  last_error (state (worker (fst (sup_step env s)))) <> stall_message.
Proof.
  destruct s as [self p]. cbn [worker at_pc]. intros Hts Herr.
  unfold sup_step. cbn [at_pc worker].
  destruct p as [|st lr|e st|st|]; cbn [fst worker].
  - unfold step_outer. pose proof (open_stream_last_error env self) as Ho.
    destruct (negb (_stop self)); [|exact Herr].
    destruct (_open_stream env self) as [[st|e] self1]; cbn [snd] in Ho.
    + destruct (stream_start env); cbn [fst worker].
      * cbn. discriminate.
      * now rewrite Ho.
    + cbn [fst worker]. now rewrite Ho.
  - unfold step_inner. destruct (negb (_stop self)); [|exact Herr].
    rewrite Hts, Rnonzero_false. cbn [andb].
    destruct (Rgeb _ _); [|exact Herr].
    rewrite cadence_block_resets.
    destruct (fst (_read_latest_window self)); exact Herr.
  - cbn. apply stream_error_not_stall.
  - unfold step_finally. destruct (negb (_stop self)); exact Herr.
  - exact Herr.
Qed.

(** X14. The stall check is armed by the first heartbeat only: while no
    callback has come in ([last_cb_ts] is 0), no run of the supervisor,
    however long the clock runs on, records the stall message; a stream
    that never delivers a block is never restarted for stalling. *)
Theorem no_stall_before_first_heartbeat (inputs : list input) :
  forall s : Sys,
    no_heartbeat inputs ->
    last_cb_ts (state (worker s)) = 0 ->
    last_error (state (worker s)) <> stall_message ->
    last_cb_ts (state (worker (fst (run inputs s)))) = 0
    /\ last_error (state (worker (fst (run inputs s)))) <> stall_message.
Proof.
  induction inputs as [|i inputs IH]; intros s Hno Hts Herr.
  - split; assumption.
  - inversion Hno as [|? ? Hi Hrest]; subst. cbn [run].
    assert (H1 : last_cb_ts (state (worker (fst (sys_step i s)))) = 0
                 /\ last_error (state (worker (fst (sys_step i s))))
                    <> stall_message).
    { destruct i as [indata status now| |env]; [contradiction| |].
      - split; assumption.
      - cbn [sys_step]. destruct (sup_step_frame env s) as (_ & H & _).
        cbv zeta in H. rewrite H. split; [exact Hts|].
        now apply sup_step_unarmed. }
    destruct H1 as [Hts1 Herr1].
    destruct (sys_step i s) as [s1 evs1]. cbn [fst] in *.
    specialize (IH s1 Hrest Hts1 Herr1).
    destruct (run inputs s1) as [s2 evs2]. exact IH.
Qed.

Lemma no_stall_before_first_heartbeat_witness :
  let s := mkSys (demo_worker 1) AtOuter in
  let inputs := [Supervisor (calm 0 7%nat); Supervisor (calm 100 7%nat);
                 Supervisor (calm 200 7%nat)] in
  (no_heartbeat inputs
   /\ last_cb_ts (state (worker s)) = 0
   /\ last_error (state (worker s)) <> stall_message)
  /\ last_error (state (worker (fst (run inputs s)))) <> stall_message.
Proof.
  intros s inputs.
  assert (H : no_heartbeat inputs
              /\ last_cb_ts (state (worker s)) = 0
              /\ last_error (state (worker s)) <> stall_message).
  { split; [repeat constructor|]. split; [reflexivity|discriminate]. }
  split; [exact H|]. destruct H as (H1 & H2 & H3).
  exact (proj2 (no_stall_before_first_heartbeat inputs s H1 H2 H3)).
Defined.

(** X15. [_open_stream] with a device query that answers: the sample
    rate becomes the device's (or stays, if the device names none), it is
    published in [sr_used], and [_need] is recomputed from it, also when
    the stream constructor then raises; the ring buffer and its cursor
    are left as they are, so the capacity is still that of construction
    and the next window read returns [(need - 1) mod capacity + 1]
    samples. What [sd.WasapiSettings] answers changes nothing. If the
    query raises, the worker is unchanged. *)
Theorem open_stream_keeps_ring (env : Env) (self : MicWorker) :
  (forall d, query_devices env = Ok d ->
     let rate := match d with Some v => py_int v | None => sr self end in
     let self' := snd (_open_stream env self) in
     fst (_open_stream env self) = InputStream env
     /\ sr self' = rate /\ sr_used (state self') = rate
     /\ _need self' = py_int (window_sec self * IZR rate)
     /\ _buf self' = _buf self /\ _w self' = _w self
     /\ ((0 <= _w self < size (_buf self))%Z ->
         exists window,
           fst (_read_latest_window self') = Ok window
           /\ size window
              = ((_need self' - 1) mod size (_buf self) + 1)%Z))
  /\ (forall e, query_devices env = Raise e ->
        _open_stream env self = (Raise e, self))
  /\ (forall r, _open_stream (with_wasapi r env) self
                = _open_stream env self).
Proof.
  split; [|split].
  - intros d Hq. cbv zeta.
    assert (E : _open_stream env self
                = (InputStream env,
                   set_need
                     (py_int (window_sec self
                              * IZR (match d with
                                     | Some v => py_int v
                                     | None => sr self end)))
                     (set_state
                        (set_sr_used (match d with
                                      | Some v => py_int v
                                      | None => sr self end))
                        (set_sr (match d with
                                 | Some v => py_int v
                                 | None => sr self end) self)))).
    { unfold _open_stream, bind, get, modify, lift. rewrite Hq.
      destruct (InputStream env); reflexivity. }
    rewrite E. cbn [fst snd]. repeat split.
    intros Hw.
    set (self' := set_need _ _).
    destruct (read_latest_window_size self') as (window & Er & Hs).
    { exact Hw. }
    exists window. rewrite Er. split; [reflexivity|exact Hs].
  - intros e Hq. unfold _open_stream, bind, get, modify, lift.
    now rewrite Hq.
  - intros r. reflexivity.
Qed.

Lemma py_int_literal (z : Z) (r : float) :
  (0 <= z)%Z -> r = IZR z -> py_int r = z.
Proof. intros Hz ->. now apply py_int_IZR. Qed.

Lemma open_stream_keeps_ring_witness :
  let env := device_rate 1000 7%nat in
  let self := demo_worker 1 in
  let self' := snd (_open_stream env self) in
  query_devices env = Ok (Some 1000)
  /\ (0 <= _w self < size (_buf self))%Z
  /\ _need self' = 10%Z /\ size (_buf self') = 4%Z
  /\ exists window,
       fst (_read_latest_window self') = Ok window /\ size window = 2%Z.
Proof.
  intros env self self'.
  assert (Hq : query_devices env = Ok (Some 1000)) by reflexivity.
  assert (Hw : (0 <= _w self < size (_buf self))%Z)
    by (cbv; intuition discriminate).
  split; [exact Hq|]. split; [exact Hw|].
  destruct (proj1 (open_stream_keeps_ring env self) (Some 1000) Hq)
    as (_ & _ & _ & Hn & Hb & _ & Hwin).
  fold self' in Hn, Hb, Hwin.
  assert (Hn10 : _need self' = 10%Z).
  { rewrite Hn.
    assert (E1 : py_int 1000 = 1000%Z)
      by (apply py_int_literal; [lia|reflexivity]).
    rewrite E1. apply (py_int_literal 10); [lia|].
    cbn [window_sec demo_worker self]. lra. }
  split; [exact Hn10|]. split; [now rewrite Hb|].
  destruct (Hwin Hw) as (window & E & Hs). exists window.
  split; [exact E|]. rewrite Hs, Hn10. reflexivity.
Defined.

Lemma all_zero_repeat (l : list float) :
  Forall (fun v => v = 0) l -> l = repeat 0 (List.length l).
Proof.
  induction 1 as [|v l Hv _ IH]; [reflexivity|].
  cbn [List.length repeat]. now rewrite Hv, <- IH.
Qed.

(** X16. [__init__] raises what [sd.query_devices] raises, also when
    [sr] is given; when the query answers it raises [ValueError] for a
    negative [int(window_sec * sr)] and what [np.zeros] raises when the
    host refuses the buffer. In every other case it returns a worker
    whose ring has room for exactly four windows; with a window of at
    least one sample that worker is ready for the callback, and the
    first window read returns [need] zeros. *)
Theorem init_builds_four_windows (query : res (option float))
    (refused : Z -> option exn) (device_id : Z)
    (infer : list float -> string * float) (window_sec : float)
    (sr : option Z) (threshold : float) (consecutive_needed : Z) :
  let made := MicWorker_init query refused device_id infer window_sec
                sr threshold consecutive_needed in
  (forall e, query = Raise e -> made = Raise e)
  /\ (forall d, query = Ok d ->
        let rate :=
          match sr with
          | Some v => v
          | None => py_int (match d with Some v => v | None => 48000 end)
          end in
        let need := py_int (window_sec * IZR rate) in
        ((need < 0)%Z ->
         made = Raise (ValueError "negative dimensions are not allowed"))
        /\ (forall e, (0 <= need)%Z -> refused (need * 4)%Z = Some e ->
              made = Raise e)
        /\ ((0 <= need)%Z -> refused (need * 4)%Z = None ->
            exists self,
              made = Ok self
              /\ _need self = need /\ size (_buf self) = (4 * need)%Z
              /\ ((1 <= need)%Z ->
                  callback_ready self
                  /\ fst (_read_latest_window self)
                     = Ok (repeat 0 (Z.to_nat need))))).
Proof.
  cbv zeta. unfold MicWorker_init, np_zeros.
  split; [intros e ->; reflexivity|].
  intros d ->.
  set (rate := match sr with Some v => v | None => _ end).
  set (need := py_int (window_sec * IZR rate)).
  split; [|split].
  - intros Hneg. destruct (Z.ltb_spec (need * 4) 0); [reflexivity|lia].
  - intros e Hpos Href. destruct (Z.ltb_spec (need * 4) 0); [lia|].
    now rewrite Href.
  - intros Hpos Href. destruct (Z.ltb_spec (need * 4) 0); [lia|].
    rewrite Href. eexists. split; [reflexivity|].
    cbn [_need _buf].
    assert (Hsz : size (repeat (0 : float) (Z.to_nat (need * 4)))
                  = (4 * need)%Z)
      by (unfold size; rewrite repeat_length; lia).
    assert (Hz : Forall (fun v : float => v = 0)
                   (repeat (0 : float) (Z.to_nat (need * 4))))
      by (apply Forall_forall; intros v Hv; now apply repeat_spec in Hv).
    split; [reflexivity|]. split; [exact Hsz|].
    intros Hone.
    set (self := mkMicWorker _ _ _ _ _ _ _ _ _ _ _ _ _).
    assert (Hsz' : size (_buf self) = (4 * need)%Z) by exact Hsz.
    assert (Hready : callback_ready self).
    { unfold callback_ready. rewrite Hsz'.
      change (_w self) with 0%Z. change (_meter_rms self) with 0.
      change (_meter_alpha self) with 0.20.
      repeat split; solve [lia|lra]. }
    split; [exact Hready|].
    assert (Hw : (0 <= _w self < size (_buf self))%Z) by apply Hready.
    assert (Hn : (1 <= _need self <= size (_buf self))%Z).
    { rewrite Hsz'. change (_need self) with need. lia. }
    rewrite read_latest_window_contents by assumption. cbn [fst].
    f_equal.
    assert (Hlen : size (lastn (_need self) (ring_contents self))
                   = _need self).
    { apply size_lastn. rewrite size_ring_contents by lia.
      rewrite Hsz'. change (_need self) with need. lia. }
    assert (Hall : Forall (fun v : float => v = 0)
                     (lastn (_need self) (ring_contents self))).
    { unfold lastn. apply Forall_firstn_skipn.
      rewrite ring_contents_eq by lia. apply Forall_app.
      split; now apply Forall_firstn_skipn. }
    rewrite (all_zero_repeat _ Hall). f_equal.
    unfold size in Hlen. change (_need self) with need in *. lia.
Qed.

Lemma init_builds_four_windows_witness :
  let query : res (option float) := Ok None in
  let refused : Z -> option exn := fun _ => None in
  (query = Ok None
   /\ (0 <= py_int (1 * IZR 100)%R)%Z
   /\ refused (py_int (1 * IZR 100)%R * 4)%Z = None)
  /\ exists self,
       MicWorker_init query refused 0 demo_infer 1 (Some 100%Z) 0.85 2
       = Ok self
       /\ size (_buf self) = 400%Z.
Proof.
  intros query refused.
  assert (Hn : py_int (1 * IZR 100)%R = 100%Z)
    by (apply py_int_literal; [lia|lra]).
  assert (Hq : query = Ok None) by reflexivity.
  assert (H : (0 <= py_int (1 * IZR 100)%R)%Z) by (rewrite Hn; lia).
  assert (Hr : refused (py_int (1 * IZR 100)%R * 4)%Z = None)
    by reflexivity.
  split; [split; [exact Hq|split; [exact H|exact Hr]]|].
  destruct (proj2 (proj2 (proj2 (init_builds_four_windows query refused 0
                                   demo_infer 1 (Some 100%Z) 0.85 2)
                            None Hq)) H Hr)
    as (self & E & _ & Hsz & _).
  exists self. split; [exact E|]. rewrite Hsz.
  cbv zeta in *. rewrite Hn. reflexivity.
Defined.

(** X17. Every field but [last_error] has one writer. The callback
    leaves the classification fields, the sample rate, [sr_used],
    [_need] and the stop flag as they are, whether it returns or raises;
    a step of the supervisor leaves the ring buffer, its cursor, the
    meter, [rms], [db], the heartbeat and the overflow counter as they
    are. *)
Theorem fields_have_one_writer :
  (forall indata status now self,
      let self' := snd (_callback indata status now self) in
      label (state self') = label (state self)
      /\ conf (state self') = conf (state self)
      /\ consecutive_hits (state self') = consecutive_hits (state self)
      /\ triggered (state self') = triggered (state self)
      /\ sr_used (state self') = sr_used (state self)
      /\ sr self' = sr self /\ _need self' = _need self
      /\ _stop self' = _stop self)
  /\ (forall env s,
         let self := worker s in
         let self' := worker (fst (sup_step env s)) in
         _buf self' = _buf self /\ _w self' = _w self
         /\ _meter_rms self' = _meter_rms self
         /\ _meter_alpha self' = _meter_alpha self
         /\ rms (state self') = rms (state self)
         /\ db (state self') = db (state self)
         /\ last_cb_ts (state self') = last_cb_ts (state self)
         /\ overflows (state self') = overflows (state self)).
Proof.
  split.
  - intros indata status now self. cbv zeta. rewrite callback_unfold.
    cbv zeta.
    set (s1 := after_meter (column0 indata) (after_status status self)).
    assert (H1 : label (state s1) = label (state self)
                 /\ conf (state s1) = conf (state self)
                 /\ consecutive_hits (state s1) = consecutive_hits (state self)
                 /\ triggered (state s1) = triggered (state self)
                 /\ sr_used (state s1) = sr_used (state self)
                 /\ sr s1 = sr self /\ _need s1 = _need self
                 /\ _stop s1 = _stop self).
    { unfold s1, after_meter, after_status.
      destruct (truthy status); [destruct (contains _ _)|]; repeat split. }
    destruct (math_log10 _) as [d|e]; cbn [snd]; [|exact H1].
    set (s1' := set_state (set_db (20 * d)) s1).
    destruct (write_ring_frame (column0 indata) s1') as (b & w & E).
    destruct (_write_ring (column0 indata) s1') as [[[]|e] s2];
      cbn [snd] in *; subst s2; exact H1.
  - intros env [self p]. cbv zeta. unfold sup_step. cbn [at_pc worker].
    destruct p as [|st lr|e st|st|].
    + unfold step_outer. destruct (negb (_stop self)); [|repeat split].
      unfold _open_stream, bind, get, modify, lift.
      destruct (query_devices env) as [d|e]; [|repeat split].
      destruct (InputStream env) as [st|e]; [|repeat split].
      destruct (stream_start env); repeat split.
    + unfold step_inner. destruct (negb (_stop self)); [|repeat split].
      destruct (_ && _); [repeat split|].
      destruct (Rgeb _ _); [|repeat split].
      rewrite cadence_block_resets.
      destruct (fst (_read_latest_window self)); repeat split.
    + repeat split.
    + unfold step_finally. destruct (negb (_stop self)); repeat split.
    + repeat split.
Qed.

Lemma Rgtb_false (a b : float) : a <= b -> Rgtb a b = false.
Proof.
  intros H. unfold Rgtb. destruct (Rgt_dec a b); [exfalso; lra|reflexivity].
Qed.

(** X18. A worker with an empty ring (a window shorter than one sample)
    in the inner loop, its heartbeat not stale: when the window is due
    the read raises [ZeroDivisionError] before any classification field
    is written, the handler records
    "Stream error: ZeroDivisionError: integer modulo by zero" and sleeps
    0.5 s, and the supervisor stands at the [finally] clause with the
    stream it holds. *)
Theorem empty_ring_cadence_is_caught (env1 env2 : Env) (st : stream)
    (lr : float) (self : MicWorker) :
  let r := run [Supervisor env1; Supervisor env2]
             (mkSys self (AtInner st lr)) in
  size (_buf self) = 0%Z ->
  _stop self = false ->
  last_cb_ts (state self) = 0
  \/ time_time env1 - last_cb_ts (state self) <= 1.5 ->
  time_time env1 - lr >= window_sec self ->
  at_pc (fst r) = AtFinally (Some st)
  /\ last_error (state (worker (fst r)))
     = "Stream error: ZeroDivisionError: integer modulo by zero"
  /\ snd r = [Sleep 0.5]
  /\ worker (fst r)
     = set_state
         (set_last_error
            "Stream error: ZeroDivisionError: integer modulo by zero") self.
Proof.
  intros r HL Hs Hfresh Hdue. unfold r. cbn [run sys_step].
  assert (E1 : sup_step env1 (mkSys self (AtInner st lr))
               = (mkSys self
                    (AtExcept (ZeroDivisionError "integer modulo by zero")
                       (Some st)), [])).
  { unfold sup_step, step_inner. cbn [at_pc worker].
    assert (Hcalm : Rnonzero (last_cb_ts (state self))
                    && Rgtb (time_time env1 - last_cb_ts (state self)) 1.5
                    = false).
    { destruct Hfresh as [H0|Hle].
      - now rewrite H0, Rnonzero_false.
      - now rewrite Rgtb_false, andb_false_r. }
    rewrite Hs, Hcalm, Rgeb_true by assumption.
    cbn [negb]. rewrite cadence_block_resets.
    rewrite read_latest_window_empty by assumption. reflexivity. }
  rewrite E1, except_step. cbn. repeat split.
Qed.

Lemma empty_ring_cadence_is_caught_witness :
  let self := demo_worker 0 in
  let r := run [Supervisor (calm 5 7%nat); Supervisor (calm 5 7%nat)]
             (mkSys self (AtInner 7%nat 0)) in
  (size (_buf self) = 0%Z /\ _stop self = false
   /\ (last_cb_ts (state self) = 0
       \/ time_time (calm 5 7%nat) - last_cb_ts (state self) <= 1.5)
   /\ time_time (calm 5 7%nat) - 0 >= window_sec self)
  /\ snd r = [Sleep 0.5]
  /\ at_pc (fst r) = AtFinally (Some 7%nat).
Proof.
  intros self r.
  assert (H : size (_buf self) = 0%Z /\ _stop self = false
              /\ (last_cb_ts (state self) = 0
                  \/ time_time (calm 5 7%nat) - last_cb_ts (state self)
                     <= 1.5)
              /\ time_time (calm 5 7%nat) - 0 >= window_sec self).
  { split; [reflexivity|]. split; [reflexivity|].
    split; [left; reflexivity|]. cbn. lra. }
  split; [exact H|]. destruct H as (H1 & H2 & H3 & H4).
  destruct (empty_ring_cadence_is_caught (calm 5 7%nat) (calm 5 7%nat) 7%nat
              0 self H1 H2 H3 H4) as (Ha & _ & Hb & _).
  split; [exact Hb|exact Ha].
Defined.

(** ** From the callback to the window *)

(** A callback whose block is no longer than the buffer returns, pushes
    the first channel into the ring and keeps the worker ready. *)
Lemma callback_ring (indata : ndarray2) (status : string) (now : float)
    (self : MicWorker) :
  let self' := snd (_callback indata status now self) in
  callback_ready self ->
  (size (column0 indata) <= size (_buf self))%Z ->
  fst (_callback indata status now self) = Ok tt
  /\ ring_contents self'
     = lastn (size (_buf self)) (ring_contents self ++ column0 indata)
  /\ size (_buf self') = size (_buf self)
  /\ _need self' = _need self
  /\ callback_ready self'.
Proof.
  intros self' Hready Hfit.
  destruct (callback_outcome indata status now self Hready) as (Ho & Hr').
  fold self' in Hr'.
  assert (Hw : (0 <= _w self < size (_buf self))%Z) by apply Hready.
  split.
  { rewrite Ho. destruct (Z.leb_spec (_w self + size (column0 indata))
                            (2 * size (_buf self))); [reflexivity|lia]. }
  assert (Hmain : ring_contents self'
                  = lastn (size (_buf self))
                      (ring_contents self ++ column0 indata)
                  /\ size (_buf self') = size (_buf self)
                  /\ _need self' = _need self).
  { unfold self'. rewrite callback_unfold. cbv zeta.
    set (s1 := after_meter (column0 indata) (after_status status self)).
    assert (H1 : _buf s1 = _buf self /\ _w s1 = _w self
                 /\ _need s1 = _need self
                 /\ 0 <= _meter_rms s1).
    { unfold s1, after_meter, after_status.
      destruct Hready as (_ & Hm & Ha).
      pose proof (block_rms_nonneg (column0 indata)).
      destruct (truthy status); [destruct (contains _ _)|];
        cbn [_buf _w _need _meter_rms _meter_alpha set_state set_meter_rms];
        repeat split; nra. }
    destruct H1 as (Hb & Hw1 & Hn & Hm).
    unfold math_log10.
    destruct (Rlt_dec 0 (_meter_rms s1 + 1e-12)) as [_|Hneg];
      [|exfalso; lra].
    set (s1' := set_state _ s1).
    assert (Hb' : _buf s1' = _buf self) by exact Hb.
    assert (Hw' : _w s1' = _w self) by exact Hw1.
    assert (Hc' : ring_contents s1' = ring_contents self)
      by (unfold ring_contents; now rewrite Hb', Hw').
    assert (Hw2 : (0 <= _w s1' < size (_buf s1'))%Z)
      by (rewrite Hb', Hw'; exact Hw).
    assert (Hx2 : (size (column0 indata) <= size (_buf s1'))%Z)
      by (rewrite Hb'; exact Hfit).
    destruct (write_ring_contents (column0 indata) s1' Hw2 Hx2)
      as (Ho2 & Hc2 & Hsz2 & _).
    destruct (write_ring_frame (column0 indata) s1') as (b & w & E).
    rewrite Hb', Hc' in Hc2. rewrite Hb' in Hsz2.
    destruct (_write_ring (column0 indata) s1') as [[[]|e] s2];
      cbn [fst snd] in *; [|discriminate Ho2].
    split; [exact Hc2|]. split; [exact Hsz2|].
    subst s2. exact Hn. }
  destruct Hmain as (H1 & H2 & H3).
  split; [exact H1|]. split; [exact H2|]. split; [exact H3|exact Hr'].
Qed.

Lemma callbacks_ring (calls : list (ndarray2 * string * float)) :
  forall self : MicWorker,
    let L := size (_buf self) in
    callback_ready self ->
    Forall (fun c => (size (column0 (fst (fst c))) <= L)%Z) calls ->
    ring_contents (callbacks calls self)
    = lastn L (ring_contents self ++ samples_of calls)
    /\ size (_buf (callbacks calls self)) = L
    /\ _need (callbacks calls self) = _need self
    /\ callback_ready (callbacks calls self).
Proof.
  induction calls as [|[[indata status] now] calls IH];
    intros self L Hready Hall.
  - cbn [callbacks samples_of map List.concat]. rewrite app_nil_r.
    assert (Hw : (0 <= _w self < size (_buf self))%Z) by apply Hready.
    rewrite lastn_all
      by (rewrite size_ring_contents by lia; fold L; lia).
    repeat split; try apply Hready.
  - inversion Hall as [|? ? Hx Hrest]; subst. cbn [fst] in Hx.
    destruct (callback_ring indata status now self Hready Hx)
      as (_ & Hc & Hsz & Hn & Hr').
    cbn [callbacks].
    pose proof (IH (snd (_callback indata status now self))) as IH1.
    cbv zeta in IH1. rewrite Hsz in IH1.
    destruct (IH1 Hr' Hrest) as (Hc2 & Hsz2 & Hn2 & Hr2).
    split; [|split; [exact Hsz2|split; [congruence|exact Hr2]]].
    rewrite Hc2, Hc. unfold samples_of. cbn [map List.concat fst].
    rewrite app_assoc. apply lastn_app_lastn.
    pose proof (size_nonneg (_buf self)). lia.
Qed.

(** X19. On a worker ready for the callback with
    [1 <= need <= capacity]: after any run of callbacks whose blocks are
    no longer than the buffer and bring in at least [need] samples, the
    window read returns exactly the last [need] first-channel samples
    the callbacks were given, in order, whatever their statuses. *)
Theorem window_is_latest_audio (calls : list (ndarray2 * string * float))
    (self : MicWorker) :
  let L := size (_buf self) in
  callback_ready self ->
  Forall (fun c => (size (column0 (fst (fst c))) <= L)%Z) calls ->
  (1 <= _need self <= L)%Z ->
  (_need self <= size (samples_of calls))%Z ->
  fst (_read_latest_window (callbacks calls self))
  = Ok (lastn (_need self) (samples_of calls)).
Proof.
  intros L Hready Hall Hn Hlen.
  destruct (callbacks_ring calls self Hready Hall) as (Hc & Hsz & Hn' & Hr').
  fold L in Hc, Hsz.
  assert (Hw : (0 <= _w (callbacks calls self)
                < size (_buf (callbacks calls self)))%Z) by apply Hr'.
  rewrite read_latest_window_contents; rewrite ?Hsz, ?Hn'; try assumption.
  - cbn [fst]. rewrite Hc, lastn_lastn by lia.
    now rewrite lastn_app_short by lia.
  - now rewrite <- Hsz.
Qed.

Lemma window_is_latest_audio_witness :
  let self := demo_worker 1 in
  let calls := [(mkBlock [1; 2; 3] [], "input overflow", 1);
                (mkBlock [4; 5; 6] [[0; 0; 0]], EmptyString, 2)] in
  (callback_ready self
   /\ Forall (fun c => (size (column0 (fst (fst c))) <= size (_buf self))%Z)
        calls
   /\ (1 <= _need self <= size (_buf self))%Z
   /\ (_need self <= size (samples_of calls))%Z)
  /\ fst (_read_latest_window (callbacks calls self)) = Ok [6].
Proof.
  intros self calls.
  assert (H : callback_ready self
              /\ Forall (fun c => (size (column0 (fst (fst c)))
                                   <= size (_buf self))%Z) calls
              /\ (1 <= _need self <= size (_buf self))%Z
              /\ (_need self <= size (samples_of calls))%Z).
  { split; [apply demo_worker_ready; lia|].
    split; [repeat constructor; cbv; discriminate|].
    cbv; intuition discriminate. }
  split; [exact H|]. destruct H as (H1 & H2 & H3 & H4).
  rewrite (window_is_latest_audio calls self H1 H2 H3 H4). reflexivity.
Defined.

Lemma callbacks_raised_app (a b : list event) :
  callbacks_raised (a ++ b) = (callbacks_raised a + callbacks_raised b)%nat.
Proof. unfold callbacks_raised. now rewrite filter_app, length_app. Qed.

Lemma sup_step_ready (env : Env) (s : Sys) :
  callback_ready (worker s) ->
  callback_ready (worker (fst (sup_step env s)))
  /\ size (_buf (worker (fst (sup_step env s)))) = size (_buf (worker s))
  /\ callbacks_raised (snd (sup_step env s)) = 0%nat.
Proof.
  destruct s as [self p]. unfold sup_step, callback_ready.
  cbn [at_pc worker]. intros Hr.
  destruct p as [|st lr|e st|st|].
  - unfold step_outer. destruct (negb (_stop self)); [|repeat split; apply Hr].
    unfold _open_stream, bind, get, modify, lift.
    destruct (query_devices env) as [d|e]; [|repeat split; apply Hr].
    destruct (InputStream env) as [st|e]; [|repeat split; apply Hr].
    destruct (stream_start env); repeat split; apply Hr.
  - unfold step_inner. destruct (negb (_stop self)); [|repeat split; apply Hr].
    destruct (_ && _); [repeat split; apply Hr|].
    destruct (Rgeb _ _); [|repeat split; apply Hr].
    rewrite cadence_block_resets.
    destruct (fst (_read_latest_window self)); repeat split; apply Hr.
  - repeat split; apply Hr.
  - unfold step_finally, except_pass, teardown_body.
    destruct st as [h|]; [destruct (stream_stop env)|];
      destruct (negb (_stop self)); repeat split; apply Hr.
  - repeat split; apply Hr.
Qed.

(** X20. On a worker ready for the callback, in any run of callbacks,
    stop requests and supervisor steps (stream restarts among them) in
    which every block is no longer than the ring buffer, no callback
    raises; the capacity stays what it was and the worker stays ready. *)
Theorem fitting_blocks_never_raise (inputs : list input) :
  forall s : Sys,
    callback_ready (worker s) ->
    Forall (block_fits (size (_buf (worker s)))) inputs ->
    callbacks_raised (snd (run inputs s)) = 0%nat
    /\ size (_buf (worker (fst (run inputs s)))) = size (_buf (worker s))
    /\ callback_ready (worker (fst (run inputs s))).
Proof.
  induction inputs as [|i inputs IH]; intros s Hr Hall.
  - repeat split; try apply Hr.
  - inversion Hall as [|? ? Hi Hrest]; subst. cbn [run].
    assert (Hstep : callback_ready (worker (fst (sys_step i s)))
                    /\ size (_buf (worker (fst (sys_step i s))))
                       = size (_buf (worker s))
                    /\ callbacks_raised (snd (sys_step i s)) = 0%nat).
    { destruct i as [indata status now| |env]; cbn [sys_step].
      - cbn [block_fits] in Hi.
        destruct (callback_ring indata status now (worker s) Hr Hi)
          as (Ho & _ & Hsz & _ & Hr').
        destruct (_callback indata status now (worker s)) as [[[]|e] self'];
          cbn [fst snd worker] in *; [|discriminate Ho].
        repeat split; try apply Hr'. exact Hsz.
      - repeat split; apply Hr.
      - now apply sup_step_ready. }
    destruct Hstep as (Hr1 & Hsz1 & Hno1).
    destruct (sys_step i s) as [s1 evs1]. cbn [fst snd] in *.
    rewrite <- Hsz1 in Hrest.
    destruct (IH s1 Hr1 Hrest) as (H1 & H2 & H3).
    destruct (run inputs s1) as [s2 evs2]. cbn [fst snd] in *.
    split; [now rewrite callbacks_raised_app, Hno1, H1|].
    split; [congruence|exact H3].
Qed.

Lemma fitting_blocks_never_raise_witness :
  let s := mkSys (demo_worker 1) AtOuter in
  let inputs := [Supervisor (calm 0 7%nat);
                 Callback (mkBlock [1; 2; 3] []) EmptyString 1;
                 Callback (mkBlock [4; 5; 6; 7] []) EmptyString 2;
                 Supervisor (calm 9 7%nat)] in
  (callback_ready (worker s)
   /\ Forall (block_fits (size (_buf (worker s)))) inputs)
  /\ callbacks_raised (snd (run inputs s)) = 0%nat.
Proof.
  intros s inputs.
  assert (H : callback_ready (worker s)
              /\ Forall (block_fits (size (_buf (worker s)))) inputs).
  { split; [apply demo_worker_ready; lia|].
    repeat constructor; cbv; discriminate. }
  split; [exact H|]. destruct H as [H1 H2].
  exact (proj1 (fitting_blocks_never_raise inputs s H1 H2)).
Defined.
